(** * SVI volatility-smile calibration: a shallow embedding of [svi_module.py]

    Numbers.  The program computes with binary64 floats; this development
    idealises them as the real numbers of the Standard Library ([R]), so the
    rounding of each operation is abstracted away.  [np.inf] is kept as an
    explicit extended value ([xreal]); NaN has no counterpart.

    Effects.  Python exceptions are an explicit [result] type; the global
    random generator of [np.random] is an explicit state threaded through the
    calls; [scipy.optimize.minimize] and [np.random.uniform] are library
    code, taken as parameters of the calibration section. *)

From Stdlib Require Import String Ascii Bool Arith PeanoNat Reals Lra Lia List.
From Stdlib Require Import Sorted Permutation.
Import ListNotations.

Open Scope R_scope.

(** ** Exceptions *)

Inductive exn : Type :=
| ValueError   (* empty reduction, shape mismatch, bad unpacking *)
| IndexError   (* subscript out of range *)
| OtherError.  (* anything else a library call may raise *)

Inductive result (A : Type) : Type :=
| Ok (a : A)
| Raise (e : exn).

Arguments Ok {A} a.
Arguments Raise {A} e.

Definition rbind {A B} (c : result A) (f : A -> result B) : result B :=
  match c with
  | Ok a => f a
  | Raise e => Raise e
  end.

Notation "x <- c ;; k" := (rbind c (fun x => k))
  (at level 61, c at next level, right associativity).

(** ** Comparisons as the booleans Python computes *)

Definition Rltb (x y : R) : bool := if Rlt_dec x y then true else false.
Definition Rleb (x y : R) : bool := if Rle_dec x y then true else false.
Definition Rgeb (x y : R) : bool := if Rge_dec x y then true else false.

(** ** A small model of one-dimensional [numpy] arrays *)

Module np.

Definition ndarray := list R.

(** [arr - c], [c * arr], [c + arr], [arr * c], [arr + c]: an array and a scalar. *)
Definition sub_scalar (xs : ndarray) (c : R) : ndarray := map (fun x => x - c) xs.
Definition scalar_mul (c : R) (xs : ndarray) : ndarray := map (fun x => c * x) xs.
Definition scalar_add (c : R) (xs : ndarray) : ndarray := map (fun x => c + x) xs.
Definition mul_scalar (xs : ndarray) (c : R) : ndarray := map (fun x => x * c) xs.
Definition add_scalar (xs : ndarray) (c : R) : ndarray := map (fun x => x + c) xs.

(** [arr ** 2] *)
Definition square (xs : ndarray) : ndarray := map (fun x => x ^ 2) xs.

Definition sqrt (xs : ndarray) : ndarray := map R_sqrt.sqrt xs.
Definition exp (xs : ndarray) : ndarray := map Rtrigo_def.exp xs.

Fixpoint zip_with (f : R -> R -> R) (xs ys : ndarray) : ndarray :=
  match xs, ys with
  | x :: xs', y :: ys' => f x y :: zip_with f xs' ys'
  | _, _ => []
  end.

(** A binary operation on two arrays follows the broadcasting rule: equal
    lengths pair up, a one-element array is stretched, anything else is a
    [ValueError]. *)
Definition broadcast (f : R -> R -> R) (xs ys : ndarray) : result ndarray :=
  if Nat.eqb (length xs) (length ys) then Ok (zip_with f xs ys)
  else match xs, ys with
       | [x], _ => Ok (map (fun y => f x y) ys)
       | _, [y] => Ok (map (fun x => f x y) xs)
       | _, _ => Raise ValueError
       end.

Definition add := broadcast Rplus.
Definition sub := broadcast Rminus.

Definition sum (xs : ndarray) : R := fold_left Rplus xs 0.

(** [np.min]: a reduction without identity, so an empty array raises. *)
Definition min (xs : ndarray) : result R :=
  match xs with
  | [] => Raise ValueError
  | x :: xs' => Ok (fold_left Rmin xs' x)
  end.

(** [arr[i]] *)
Definition getitem (xs : ndarray) (i : nat) : result R :=
  match nth_error xs i with
  | Some x => Ok x
  | None => Raise IndexError
  end.

(** [np.isclose(a, b)] with the default [rtol = 1e-05], [atol = 1e-08]. *)
Definition isclose (a b : R) : bool :=
  Rleb (Rabs (a - b)) (1e-08 + 1e-05 * Rabs b).

(** [np.linspace(start, stop, num)] with [endpoint=True]: the step is
    [(stop - start) / (num - 1)], sample [i] is [i * step + start], and the
    last sample is then overwritten with [stop]. *)
Definition linspace_raw (start stop : R) (num : nat) : ndarray :=
  let step := (stop - start) / INR (num - 1) in
  map (fun i => INR i * step + start) (seq 0 num).

Definition set_last (xs : ndarray) (v : R) : ndarray :=
  match xs with
  | [] => []
  | _ => removelast xs ++ [v]
  end.

Definition linspace (start stop : R) (num : nat) : ndarray :=
  if Nat.ltb 1 num then set_last (linspace_raw start stop num) stop
  else linspace_raw start stop num.

End np.

(** ** The SVI model function *)

(** [svi_model] with [k] an array, as it is called from the objective and
    from the surface generator. *)
Definition svi_model (k : np.ndarray) (a b rho m_param sigma : R) : result np.ndarray :=
  let d := np.sub_scalar k m_param in
  s <- np.add (np.scalar_mul rho d)
              (np.sqrt (np.add_scalar (np.square d) (sigma ^ 2))) ;;
  Ok (np.scalar_add a (np.scalar_mul b s)).

(** The formula at a single log-moneyness value. *)
Definition svi_point (a b rho m_param sigma k : R) : R :=
  a + b * (rho * (k - m_param) + sqrt ((k - m_param) ^ 2 + sigma ^ 2)).

(** ** The calibration objective *)

Definition penalty : R := 1e10.

(** [a, b, rho, m_param, sigma = params] *)
Definition unpack5 (params : list R) : result (R * R * R * R * R) :=
  match params with
  | [a; b; rho; m_param; sigma] => Ok (a, b, rho, m_param, sigma)
  | _ => Raise ValueError
  end.

Definition svi_objective (params : list R) (k v : np.ndarray) (lambda_reg : R)
  : result R :=
  p <- unpack5 params ;;
  let '(a, b, rho, m_param, sigma) := p in
  if Rltb b 0 || Rleb sigma 0 || Rgeb (Rabs rho) 1 then Ok penalty
  else
    model_values <- svi_model k a b rho m_param sigma ;;
    diff <- np.sub model_values v ;;
    let error := np.sum (np.square diff) in
    let reg_penalty := lambda_reg * (b ^ 2 + sigma ^ 2) in
    Ok (error + reg_penalty).

(** ** The multi-start optimizer *)

(** Extended reals: the entries of the optimizer's box bounds and the
    running best objective value, which starts at [np.inf]. *)
Inductive xreal : Type :=
| NegInf
| Fin (x : R)
| PosInf.

(** [f < best] for a finite [f]. *)
Definition lt_best (f : R) (best : xreal) : bool :=
  match best with
  | NegInf => false
  | Fin y => Rltb f y
  | PosInf => true
  end.

(** The object [minimize] returns: [result.x] and [result.fun].  The
    reported value is a real number: a completed attempt reporting [inf] or
    NaN, which the comparison of the loop never keeps, has no counterpart
    here. *)
Record OptimizeResult : Type := mkOptimizeResult {
  res_x : list R;
  res_fun : R
}.

(** The two variables the loop of [calibrate_svi] updates. *)
Record best : Type := mkBest {
  best_params : option (list R);
  best_obj_val : xreal
}.

Definition bounds : list (xreal * xreal) :=
  [ (NegInf, PosInf);          (* a: vertical shift *)
    (Fin 0, PosInf);           (* b: slope/curvature *)
    (Fin (-0.99), Fin 0.99);   (* rho: correlation/asymmetry *)
    (NegInf, PosInf);          (* m: horizontal shift *)
    (Fin 0.001, PosInf) ].     (* sigma: smoothness *)

Section Calibration.

(** State of the global random generator and [np.random.uniform(low, high)]. *)
Variable rng : Type.
Variable uniform : R -> R -> rng -> R * rng.

(** [scipy.optimize.minimize(fun, x0, bounds=bounds, method="L-BFGS-B")]:
    either it raises or it returns a result object. *)
Variable minimize :
  (list R -> result R) -> list R -> list (xreal * xreal) -> result OptimizeResult.

(** The random starting point of one attempt, drawn in source order. *)
Definition draw_x0 (base_a : R) (g : rng) : list R * rng :=
  let '(u, g) := uniform (-0.5) 0.5 g in
  let a0 := base_a + u in
  let '(u, g) := uniform (-0.05) 0.05 g in
  let b0 := 0.1 + u in
  let '(rho0, g) := uniform (-0.9) 0.9 g in
  let '(m0, g) := uniform (-0.1) 0.1 g in
  let '(u, g) := uniform 0 0.1 g in
  let sigma0 := 0.1 + u in
  ([a0; b0; rho0; m0; sigma0], g).

(** The call of [minimize] made by one attempt. *)
Definition run_minimize (k v : np.ndarray) (lambda_reg : R) (x0 : list R)
  : result OptimizeResult :=
  minimize (fun params => svi_objective params k v lambda_reg) x0 bounds.

(** The body of the [try] block together with its [except Exception: continue]. *)
Definition update_best (st : best) (r : result OptimizeResult) : best :=
  match r with
  | Ok res =>
      if lt_best (res_fun res) (best_obj_val st)
      then {| best_params := Some (res_x res); best_obj_val := Fin (res_fun res) |}
      else st
  | Raise _ => st
  end.

(** [for _ in range(multi_start_count)] *)
Fixpoint multi_start (n : nat) (k v : np.ndarray) (lambda_reg base_a : R)
  (st : best) (g : rng) : best * rng :=
  match n with
  | O => (st, g)
  | S n' =>
      let '(x0, g') := draw_x0 base_a g in
      multi_start n' k v lambda_reg base_a
        (update_best st (run_minimize k v lambda_reg x0)) g'
  end.

Definition init_best : best := {| best_params := None; best_obj_val := PosInf |}.

(** [calibrate_svi] up to its [return]: the final values of both loop
    variables and the generator state. *)
Definition calibrate_svi_run (k v : np.ndarray) (lambda_reg : R)
  (multi_start_count : nat) (g : rng) : result (best * rng) :=
  base_a <- np.min v ;;
  Ok (multi_start multi_start_count k v lambda_reg base_a init_best g).

Definition calibrate_svi (k v : np.ndarray) (lambda_reg : R)
  (multi_start_count : nat) (g : rng) : result (option (list R) * rng) :=
  r <- calibrate_svi_run k v lambda_reg multi_start_count g ;;
  Ok (best_params (fst r), snd r).

(** The outcomes of the successive [minimize] calls of the loop, in order
    (an observation of the loop, used to state what it selects). *)
Fixpoint attempts (n : nat) (k v : np.ndarray) (lambda_reg base_a : R) (g : rng)
  : list (result OptimizeResult) :=
  match n with
  | O => []
  | S n' =>
      let '(x0, g') := draw_x0 base_a g in
      run_minimize k v lambda_reg x0 :: attempts n' k v lambda_reg base_a g'
  end.

End Calibration.

(** ** Tables *)

(** A cell of an output row. *)
Inductive value : Type :=
| VNum (x : R)
| VStr (s : string).

(** A Python [dict] with string keys, in insertion order. *)
Definition pyrecord := list (string * value).

Definition lookup (key : string) (r : pyrecord) : option value :=
  match find (fun kv => String.eqb key (fst kv)) r with
  | Some kv => Some (snd kv)
  | None => None
  end.

(** The surface table: its column labels and its rows. *)
Record DataFrame : Type := mkDataFrame {
  columns : list string;
  data : list pyrecord
}.

Definition add_key (cols : list string) (key : string) : list string :=
  if existsb (String.eqb key) cols then cols else cols ++ [key].

(** [pd.DataFrame(records)]: the columns are the keys of the records, in
    order of first appearance. *)
Definition DataFrame_of_records (records : list pyrecord) : DataFrame :=
  {| columns := fold_left (fun cols r => fold_left add_key (map fst r) cols) records [];
     data := records |}.

(** [pd.DataFrame(columns=cols)] *)
Definition DataFrame_of_columns (cols : list string) : DataFrame :=
  {| columns := cols; data := [] |}.

(** One market quote: a row of the input table.  [volume] is read only when
    the table has that column. *)
Record Quote : Type := mkQuote {
  TimeToExpiry : R;
  LogMoneyness : R;
  ImpliedVolatility : R;
  volume : R
}.

(** The input table: whether the optional ["volume"] column is among its
    columns, and its rows. *)
Record QuoteTable : Type := mkQuoteTable {
  has_volume : bool;
  quotes : list Quote
}.

(** ** Python built-ins used by the generator *)

(** [min(xs)] and [max(xs)] over an iterable: empty raises [ValueError]. *)
Definition py_min (xs : list R) : result R :=
  match xs with
  | [] => Raise ValueError
  | x :: xs' => Ok (fold_left (fun m y => if Rltb y m then y else m) xs' x)
  end.

Definition py_max (xs : list R) : result R :=
  match xs with
  | [] => Raise ValueError
  | x :: xs' => Ok (fold_left (fun m y => if Rltb m y then y else m) xs' x)
  end.

Fixpoint intersperse (new s : string) : string :=
  match s with
  | EmptyString => new
  | String c s' => new ++ String c (intersperse new s')
  end.

(** Scan of [str.replace]: [skip] counts the characters of an occurrence
    already replaced. *)
Fixpoint replace_scan (old new s : string) (skip : nat) : string :=
  match s with
  | EmptyString => EmptyString
  | String c s' =>
      match skip with
      | S n => replace_scan old new s' n
      | O =>
          if String.prefix old s
          then new ++ replace_scan old new s' (String.length old - 1)
          else String c (replace_scan old new s' 0)
      end
  end.

(** [s.replace(old, new)]: every non-overlapping occurrence, left to right. *)
Definition str_replace (s old new : string) : string :=
  match old with
  | EmptyString => intersperse new s
  | _ => replace_scan old new s 0
  end.

(** ** The surface generator *)

Definition option_label (option_data_type : string) : string :=
  str_replace (str_replace option_data_type " Only" "") "Both Calls & Puts" "Both".

(** The dictionary literal of the loop body, its entries in source order. *)
Definition row_dict (maturity : R) (option_data_type : string)
  (k_i strike_i moneyness_i v_i : R) : pyrecord :=
  [ ("TimeToExpiry"%string, VNum maturity);
    ("LogMoneyness"%string, VNum k_i);
    ("StrikePrice"%string, VNum strike_i);
    ("Moneyness"%string, VNum moneyness_i);
    ("ImpliedVolatility"%string, VNum (v_i / 100));
    ("OptionType"%string, VStr (option_label option_data_type)) ].

(** The dictionary appended for grid index [i]; each subscript may raise. *)
Definition surface_row (maturity : R) (option_data_type : string)
  (k_smooth strikes_smooth v_smooth : np.ndarray) (i : nat) : result pyrecord :=
  ki <- np.getitem k_smooth i ;;
  si <- np.getitem strikes_smooth i ;;
  ki' <- np.getitem k_smooth i ;;
  vi <- np.getitem v_smooth i ;;
  Ok (row_dict maturity option_data_type ki si (exp ki') vi).

(** [for i in range(len(k_smooth)): svi_calibrated_data.append({...})] *)
Fixpoint append_rows (idx : list nat) (maturity : R) (option_data_type : string)
  (k_smooth strikes_smooth v_smooth : np.ndarray) (svi_calibrated_data : list pyrecord)
  : result (list pyrecord) :=
  match idx with
  | [] => Ok svi_calibrated_data
  | i :: idx' =>
      row <- surface_row maturity option_data_type k_smooth strikes_smooth v_smooth i ;;
      append_rows idx' maturity option_data_type k_smooth strikes_smooth v_smooth
        (svi_calibrated_data ++ [row])
  end.

(** The rows of [imp_vol_data] whose [TimeToExpiry] is close to [maturity]. *)
Definition maturity_slice (imp_vol_data : QuoteTable) (maturity : R) : list Quote :=
  filter (fun q => np.isclose (TimeToExpiry q) maturity) (quotes imp_vol_data).

Definition slice_k (maturity_data : list Quote) : np.ndarray :=
  map LogMoneyness maturity_data.

Definition slice_v (maturity_data : list Quote) : np.ndarray :=
  np.mul_scalar (map ImpliedVolatility maturity_data) 100.

Section Generator.

Variable rng : Type.
Variable uniform : R -> R -> rng -> R * rng.
Variable minimize :
  (list R -> result R) -> list R -> list (xreal * xreal) -> result OptimizeResult.

(** The part of the loop body after a successful calibration. *)
Definition sample_curve (maturity : R) (k : np.ndarray) (params : list R)
  (spot_price : R) (option_data_type : string) (svi_calibrated_data : list pyrecord)
  : result (list pyrecord) :=
  p <- unpack5 params ;;
  let '(a, b, rho, m_param, sigma) := p in
  lo <- py_min k ;;
  hi <- py_max k ;;
  let k_smooth := np.linspace (lo - 0.1) (hi + 0.1) 100 in
  v_smooth <- svi_model k_smooth a b rho m_param sigma ;;
  let strikes_smooth := np.scalar_mul spot_price (np.exp k_smooth) in
  append_rows (seq 0 (length k_smooth)) maturity option_data_type
    k_smooth strikes_smooth v_smooth svi_calibrated_data.

(** One iteration of [for maturity in unique_maturities]. *)
Definition maturity_step (imp_vol_data : QuoteTable) (spot_price reg_weight : R)
  (multi_start_count : nat) (option_data_type : string)
  (maturity : R) (svi_calibrated_data : list pyrecord) (g : rng)
  : result (list pyrecord * rng) :=
  let maturity_data := maturity_slice imp_vol_data maturity in
  if Nat.ltb (length maturity_data) 5 then Ok (svi_calibrated_data, g)
  else
    let k := slice_k maturity_data in
    let v := slice_v maturity_data in
    r <- calibrate_svi rng uniform minimize k v reg_weight multi_start_count g ;;
    let '(params, g') := r in
    match params with
    | None => Ok (svi_calibrated_data, g')
    | Some params =>
        rows <- sample_curve maturity k params spot_price option_data_type
                  svi_calibrated_data ;;
        Ok (rows, g')
    end.

Fixpoint maturity_loop (unique_maturities : list R) (imp_vol_data : QuoteTable)
  (spot_price reg_weight : R) (multi_start_count : nat) (option_data_type : string)
  (svi_calibrated_data : list pyrecord) (g : rng) : result (list pyrecord * rng) :=
  match unique_maturities with
  | [] => Ok (svi_calibrated_data, g)
  | maturity :: rest =>
      r <- maturity_step imp_vol_data spot_price reg_weight multi_start_count
             option_data_type maturity svi_calibrated_data g ;;
      maturity_loop rest imp_vol_data spot_price reg_weight multi_start_count
        option_data_type (fst r) (snd r)
  end.

Definition empty_columns : list string :=
  [ "TimeToExpiry"; "StrikePrice"; "Moneyness"; "ImpliedVolatility"; "OptionType" ]%string.

Definition generate_svi_calibrated_data (unique_maturities : list R)
  (imp_vol_data : QuoteTable) (spot_price reg_weight : R) (multi_start_count : nat)
  (option_data_type : string) (g : rng) : result (DataFrame * rng) :=
  r <- maturity_loop unique_maturities imp_vol_data spot_price reg_weight
         multi_start_count option_data_type [] g ;;
  let '(svi_calibrated_data, g') := r in
  match svi_calibrated_data with
  | _ :: _ => Ok (DataFrame_of_records svi_calibrated_data, g')
  | [] => Ok (DataFrame_of_columns empty_columns, g')
  end.

End Generator.

(** ** The outlier filter *)

Definition Rgtb (x y : R) : bool := if Rgt_dec x y then true else false.

(** A float that may be NaN ([None]); every comparison with NaN is false. *)
Definition nanfloat := option R.

Definition nan_map2 (f : R -> R -> R) (x y : nanfloat) : nanfloat :=
  match x, y with
  | Some a, Some b => Some (f a b)
  | _, _ => None
  end.

Definition ge_nan (x : R) (y : nanfloat) : bool :=
  match y with Some b => Rgeb x b | None => false end.

Definition le_nan (x : R) (y : nanfloat) : bool :=
  match y with Some b => Rleb x b | None => false end.

Fixpoint insert_sorted (x : R) (xs : list R) : list R :=
  match xs with
  | [] => [x]
  | y :: ys => if Rleb x y then x :: y :: ys else y :: insert_sorted x ys
  end.

Definition sort_values (xs : list R) : list R := fold_right insert_sorted [] xs.

(** [Series.quantile(num / den)] with the default linear interpolation: on
    the sorted values the position is [(n - 1) * q]; the result interpolates
    between its two neighbours.  An empty series gives NaN. *)
Definition quantile (xs : list R) (num den : nat) : nanfloat :=
  match xs with
  | [] => None
  | _ :: _ =>
      let s := sort_values xs in
      let pos := ((length xs - 1) * num)%nat in
      let lo := (pos / den)%nat in
      let hi := Nat.min (lo + 1) (length xs - 1) in
      let frac := INR (pos mod den) / INR den in
      Some (nth lo s 0 + (nth hi s 0 - nth lo s 0) * frac)
  end.

(** Table objects live in a store; a variable holds a reference. *)
Definition frames := list QuoteTable.

Definition deref (h : frames) (ref : nat) : result QuoteTable :=
  match nth_error h ref with
  | Some t => Ok t
  | None => Raise OtherError
  end.

Definition new_frame (h : frames) (t : QuoteTable) : nat * frames :=
  (length h, h ++ [t]).

Fixpoint select_rows (qs : list Quote) (mask : list bool) : list Quote :=
  match qs, mask with
  | q :: qs', b :: mask' =>
      if b then q :: select_rows qs' mask' else select_rows qs' mask'
  | _, _ => []
  end.

Fixpoint mask_and (m1 m2 : list bool) : list bool :=
  match m1, m2 with
  | b1 :: m1', b2 :: m2' => (b1 && b2) :: mask_and m1' m2'
  | _, _ => []
  end.

(** [df[mask]]: a new table object holding the rows whose mask entry is true. *)
Definition getitem_mask (h : frames) (ref : nat) (mask : list bool)
  : result (nat * frames) :=
  t <- deref h ref ;;
  Ok (new_frame h {| has_volume := has_volume t;
                     quotes := select_rows (quotes t) mask |}).

(** [# Filter by volume if available]: the variable [imp_vol_data] is
    rebound to a new table when the column is there. *)
Definition volume_step (h : frames) (imp_vol_data : nat) : result (nat * frames) :=
  t <- deref h imp_vol_data ;;
  if has_volume t
  then getitem_mask h imp_vol_data (map (fun q => Rgtb (volume q) 10) (quotes t))
  else Ok (imp_vol_data, h).

(** [# Remove outliers based on IQR method] *)
Definition iqr_step (h : frames) (imp_vol_data : nat) : result (nat * frames) :=
  t <- deref h imp_vol_data ;;
  let iv := map ImpliedVolatility (quotes t) in
  let Q1 := quantile iv 1 4 in
  let Q3 := quantile iv 3 4 in
  let IQR := nan_map2 Rminus Q3 Q1 in
  let lower_bound := nan_map2 Rminus Q1 (nan_map2 Rmult (Some 2) IQR) in
  let upper_bound := nan_map2 Rplus Q3 (nan_map2 Rmult (Some 2) IQR) in
  getitem_mask h imp_vol_data
    (mask_and (map (fun x => ge_nan x lower_bound) iv)
              (map (fun x => le_nan x upper_bound) iv)).

Definition filter_outliers (h : frames) (imp_vol_data : nat) : result (nat * frames) :=
  r <- volume_step h imp_vol_data ;;
  iqr_step (snd r) (fst r).

(** ** Specification-side definitions *)

(** The rows the filter is said to keep, written as two plain filters. *)
Definition volume_filtered (t : QuoteTable) : list Quote :=
  if has_volume t then filter (fun q => Rgtb (volume q) 10) (quotes t) else quotes t.

Definition within_fences (Q1 Q3 : R) (x : R) : Prop :=
  Q1 - 2 * (Q3 - Q1) <= x <= Q3 + 2 * (Q3 - Q1).

(** The six column labels of the surface table. *)
Definition surface_columns : list string :=
  [ "TimeToExpiry"; "LogMoneyness"; "StrikePrice"; "Moneyness";
    "ImpliedVolatility"; "OptionType" ]%string.

Definition num_cell (key : string) (r : pyrecord) : option R :=
  match lookup key r with
  | Some (VNum x) => Some x
  | _ => None
  end.

(** The sum over the paired points of the squared model-minus-market error. *)
Definition squared_errors (a b rho m_param sigma : R) (k v : list R) : R :=
  fold_right Rplus 0
    (map (fun p => (svi_point a b rho m_param sigma (fst p) - snd p) ^ 2) (combine k v)).

(** The rows one fitted maturity contributes, written as one map over the
    grid. *)
Definition curve_rows (maturity : R) (option_data_type : string) (spot_price : R)
  (a b rho m_param sigma : R) (lo hi : R) : list pyrecord :=
  map (fun x => row_dict maturity option_data_type x (spot_price * exp x) (exp x)
                  (svi_point a b rho m_param sigma x))
      (np.linspace (lo - 0.1) (hi + 0.1) 100).

(** The rows of a table that carry a given maturity. *)
Definition has_maturity (maturity : R) (row : pyrecord) : bool :=
  match num_cell "TimeToExpiry" row with
  | Some t => if Req_dec_T t maturity then true else false
  | None => false
  end.

Definition rows_of_maturity (maturity : R) (rows : list pyrecord) : list pyrecord :=
  filter (has_maturity maturity) rows.

(** Least and greatest element of a list. *)
Definition least (lo : R) (xs : list R) : Prop :=
  In lo xs /\ forall x, In x xs -> lo <= x.

Definition greatest (hi : R) (xs : list R) : Prop :=
  In hi xs /\ forall x, In x xs -> x <= hi.

(** Where an output row comes from: a maturity of the input list whose slice
    passed the five-quote gate, the parameters returned by a calibration on
    that slice with the volatilities multiplied by 100, and a point of the
    grid built over the slice. *)
Definition emitted (rng : Type) (uniform : R -> R -> rng -> R * rng)
  (minimize : (list R -> result R) -> list R -> list (xreal * xreal)
              -> result OptimizeResult)
  (imp_vol_data : QuoteTable) (spot_price reg_weight : R) (multi_start_count : nat)
  (option_data_type : string) (unique_maturities : list R) (row : pyrecord) : Prop :=
  exists maturity g1 g2 a b rho m_param sigma lo hi x,
    let sl := maturity_slice imp_vol_data maturity in
    In maturity unique_maturities /\
    (5 <= length sl)%nat /\
    calibrate_svi rng uniform minimize (map LogMoneyness sl)
      (map (fun q => ImpliedVolatility q * 100) sl) reg_weight multi_start_count g1
      = Ok (Some [a; b; rho; m_param; sigma], g2) /\
    py_min (map LogMoneyness sl) = Ok lo /\
    py_max (map LogMoneyness sl) = Ok hi /\
    In x (np.linspace (lo - 0.1) (hi + 0.1) 100) /\
    row = row_dict maturity option_data_type x (spot_price * exp x) (exp x)
            (svi_point a b rho m_param sigma x).

(** ** Concrete generators and optimizers, used to run the model *)

(** A generator whose state counts the draws and which returns the midpoint. *)
Definition uniform_mid (low high : R) (g : nat) : R * nat := ((low + high) / 2, S g).

(** An optimizer that stops at its starting point. *)
Definition minimize_stay (f : list R -> result R) (x0 : list R)
  (bs : list (xreal * xreal)) : result OptimizeResult :=
  y <- f x0 ;; Ok {| res_x := x0; res_fun := y |}.

(** An optimizer whose every call raises. *)
Definition minimize_raise (f : list R -> result R) (x0 : list R)
  (bs : list (xreal * xreal)) : result OptimizeResult :=
  Raise OtherError.

(** The end-to-end scenario: one maturity [0.5] with six quotes, spot 100. *)
Definition scenario_quotes : list Quote :=
  [ mkQuote 0.5 (-0.2) 0.25 0; mkQuote 0.5 (-0.1) 0.22 0; mkQuote 0.5 0 0.20 0;
    mkQuote 0.5 0.1 0.21 0; mkQuote 0.5 0.2 0.23 0; mkQuote 0.5 0.3 0.26 0 ].

Definition scenario_table : QuoteTable :=
  {| has_volume := false; quotes := scenario_quotes |}.

(** The scenario with two more quotes at maturity [1]: too few for a fit. *)
Definition mixed_table : QuoteTable :=
  {| has_volume := false;
     quotes := scenario_quotes ++ [ mkQuote 1 0 0.30 0; mkQuote 1 0.1 0.31 0 ] |}.

(** Five quotes without a volume column, one with an extreme volatility. *)
Definition outlier_quotes : list Quote :=
  [ mkQuote 0.5 0 0.1 0; mkQuote 0.5 0 0.12 0; mkQuote 0.5 0 0.11 0;
    mkQuote 0.5 0 0.13 0; mkQuote 0.5 0 0.9 0 ].

Definition outlier_table : QuoteTable :=
  {| has_volume := false; quotes := outlier_quotes |}.

(** The same quotes with a volume column; the second row trades 5 lots. *)
Definition volume_table : QuoteTable :=
  {| has_volume := true;
     quotes := [ mkQuote 0.5 0 0.1 50; mkQuote 0.5 0 0.12 5; mkQuote 0.5 0 0.11 50;
                 mkQuote 0.5 0 0.13 50; mkQuote 0.5 0 0.9 50 ] |}.

(** The start the midpoint generator draws around [base_a]. *)
Definition mid_start (base_a : R) : list R :=
  [ base_a + (-0.5 + 0.5) / 2; 0.1 + (-0.05 + 0.05) / 2; (-0.9 + 0.9) / 2;
    (-0.1 + 0.1) / 2; 0.1 + (0 + 0.1) / 2 ].

(** Outcome selectors over the recorded attempts. *)
Definition raised (r : result OptimizeResult) : Prop :=
  match r with Raise _ => True | Ok _ => False end.

Definition completed (rs : list (result OptimizeResult)) (res : OptimizeResult) : Prop :=
  In (Ok res) rs.

(** What the two loop variables hold after the attempts [rs]: nothing and
    [inf] when all of them raised, otherwise a completed attempt whose
    reported value is minimal among the completed ones. *)
Definition tracks (st : best) (rs : list (result OptimizeResult)) : Prop :=
  (best_params st = None /\ best_obj_val st = PosInf /\ Forall raised rs) \/
  (exists res, completed rs res /\
     best_params st = Some (res_x res) /\
     best_obj_val st = Fin (res_fun res) /\
     forall res', completed rs res' -> res_fun res <= res_fun res').

(** What [minimize] is known to do: the point it returns has the shape of
    the starting point. *)
Definition keeps_shape
  (minimize : (list R -> result R) -> list R -> list (xreal * xreal)
              -> result OptimizeResult) : Prop :=
  forall f x0 bs res, minimize f x0 bs = Ok res -> length (res_x res) = length x0.

(** What [minimize] is also known to do: the value it reports is the
    objective at the point it returns. *)
Definition reports_objective
  (minimize : (list R -> result R) -> list R -> list (xreal * xreal)
              -> result OptimizeResult) : Prop :=
  forall f x0 bs res, minimize f x0 bs = Ok res -> f (res_x res) = Ok (res_fun res).

(** What [np.random.uniform(low, high)] is known to do: the draw lies in
    the interval. *)
Definition draws_in_range (rng : Type) (uniform : R -> R -> rng -> R * rng) : Prop :=
  forall low high g, low <= high -> low <= fst (uniform low high g) <= high.

(** A point inside a box of bounds. *)
Definition above (lo : xreal) (x : R) : Prop :=
  match lo with
  | NegInf => True
  | Fin l => l <= x
  | PosInf => False
  end.

Definition below (hi : xreal) (x : R) : Prop :=
  match hi with
  | NegInf => False
  | Fin h => x <= h
  | PosInf => True
  end.

Definition within_bounds (x : list R) (bs : list (xreal * xreal)) : Prop :=
  Forall2 (fun xi b => above (fst b) xi /\ below (snd b) xi) x bs.

(** The generator state after the five draws of one attempt. *)
Definition advance (rng : Type) (uniform : R -> R -> rng -> R * rng) (g : rng) : rng :=
  snd (draw_x0 rng uniform 0 g).

(** The kept result is the first completed attempt that reaches the lowest
    reported value: every completed attempt before it reported a larger
    value, every one after it a value at least as large. *)
Definition keeps_first_best (st : best) (rs : list (result OptimizeResult)) : Prop :=
  exists pre res post,
    rs = pre ++ Ok res :: post /\
    best_params st = Some (res_x res) /\
    best_obj_val st = Fin (res_fun res) /\
    (forall r', completed pre r' -> res_fun res < res_fun r') /\
    (forall r', completed post r' -> res_fun res <= res_fun r').

(** [old in s]: [old] occurs in [s] as a substring. *)
Fixpoint contains (old s : string) : bool :=
  match s with
  | EmptyString => String.prefix old EmptyString
  | String c s' => String.prefix old s || contains old s'
  end.

(** * Properties *)

(** ** Booleans and propositions *)

Lemma Rltb_true x y : Rltb x y = true <-> x < y.
Proof. unfold Rltb; destruct (Rlt_dec x y); split; intros; try easy. Qed.

Lemma Rltb_false x y : Rltb x y = false <-> y <= x.
Proof. unfold Rltb; destruct (Rlt_dec x y); split; intros; try easy; lra. Qed.

Lemma Rleb_true x y : Rleb x y = true <-> x <= y.
Proof. unfold Rleb; destruct (Rle_dec x y); split; intros; try easy. Qed.

Lemma Rleb_false x y : Rleb x y = false <-> y < x.
Proof. unfold Rleb; destruct (Rle_dec x y); split; intros; try easy; lra. Qed.

Lemma Rgeb_true x y : Rgeb x y = true <-> x >= y.
Proof. unfold Rgeb; destruct (Rge_dec x y); split; intros; try easy. Qed.

Lemma Rgeb_false x y : Rgeb x y = false <-> x < y.
Proof. unfold Rgeb; destruct (Rge_dec x y); split; intros; try easy; lra. Qed.

Lemma Rgtb_true x y : Rgtb x y = true <-> x > y.
Proof. unfold Rgtb; destruct (Rgt_dec x y); split; intros; try easy. Qed.

Lemma Rgtb_false x y : Rgtb x y = false <-> x <= y.
Proof. unfold Rgtb; destruct (Rgt_dec x y); split; intros; try easy; lra. Qed.

(** ** Arrays *)

Lemma zip_with_map (f : R -> R -> R) (g h : R -> R) (xs : list R) :
  np.zip_with f (map g xs) (map h xs) = map (fun x => f (g x) (h x)) xs.
Proof. induction xs as [|x xs IH]; simpl; [reflexivity | now rewrite IH]. Qed.

Lemma zip_with_combine (f : R -> R -> R) (xs ys : list R) :
  np.zip_with f xs ys = map (fun p => f (fst p) (snd p)) (combine xs ys).
Proof.
  revert ys; induction xs as [|x xs IH]; intros [|y ys]; simpl; try reflexivity.
  now rewrite IH.
Qed.

Lemma broadcast_same_length (f : R -> R -> R) (xs ys : list R) :
  length xs = length ys -> np.broadcast f xs ys = Ok (np.zip_with f xs ys).
Proof.
  intros H; unfold np.broadcast.
  now rewrite (proj2 (Nat.eqb_eq _ _) H).
Qed.

Lemma fold_left_Rplus (xs : list R) (acc : R) :
  fold_left Rplus xs acc = acc + fold_right Rplus 0 xs.
Proof.
  revert acc; induction xs as [|x xs IH]; intros acc; simpl; [lra|].
  rewrite IH; lra.
Qed.

Lemma np_sum_fold_right (xs : list R) : np.sum xs = fold_right Rplus 0 xs.
Proof. unfold np.sum; rewrite fold_left_Rplus; lra. Qed.

(** ** The model function *)

(** The array operations of [svi_model] never fail and amount to applying
    the scalar formula to each element. *)
Lemma svi_model_elementwise (k : list R) (a b rho m_param sigma : R) :
  svi_model k a b rho m_param sigma = Ok (map (svi_point a b rho m_param sigma) k).
Proof.
  unfold svi_model, np.add, np.scalar_mul, np.sqrt, np.add_scalar, np.square,
    np.sub_scalar, np.scalar_add.
  rewrite broadcast_same_length by (now rewrite !length_map).
  rewrite !map_map, zip_with_map; simpl.
  rewrite !map_map.
  f_equal.
Qed.

(** C7: for a valid parameter set ([b >= 0], [|rho| < 1], [sigma > 0]) and
    any array [k] of log-moneyness values, [svi_model] returns (it never
    raises) an array as long as [k] whose entry [i] is
    [a + b * (rho * (k_i - m) + sqrt ((k_i - m)^2 + sigma^2))].  The model is
    a function of its arguments only, so it is deterministic and has no
    effect. *)
Theorem svi_model_formula (k : list R) (a b rho m_param sigma : R) :
  b >= 0 -> Rabs rho < 1 -> sigma > 0 ->
  exists out,
    svi_model k a b rho m_param sigma = Ok out /\
    length out = length k /\
    forall i ki, nth_error k i = Some ki ->
      nth_error out i =
        Some (a + b * (rho * (ki - m_param) + sqrt ((ki - m_param) ^ 2 + sigma ^ 2))).
Proof.
  intros _ _ _.
  exists (map (svi_point a b rho m_param sigma) k).
  split; [apply svi_model_elementwise|].
  split; [apply length_map|].
  intros i ki Hi.
  rewrite nth_error_map, Hi; reflexivity.
Qed.

Lemma svi_model_formula_witness :
  exists out,
    svi_model [0; 1] 20 1 0 0 1 = Ok out /\
    length out = 2%nat /\
    forall i ki, nth_error [0; 1] i = Some ki ->
      nth_error out i = Some (20 + 1 * (0 * (ki - 0) + sqrt ((ki - 0) ^ 2 + 1 ^ 2))).
Proof.
  apply (svi_model_formula [0; 1] 20 1 0 0 1).
  - lra.
  - rewrite Rabs_R0; lra.
  - lra.
Defined.

(** ** The calibration objective *)

Lemma invalid_gate (b rho sigma : R) :
  Rltb b 0 || Rleb sigma 0 || Rgeb (Rabs rho) 1 = true <->
  b < 0 \/ sigma <= 0 \/ Rabs rho >= 1.
Proof.
  rewrite !orb_true_iff, Rltb_true, Rleb_true, Rgeb_true; tauto.
Qed.

Lemma valid_gate (b rho sigma : R) :
  Rltb b 0 || Rleb sigma 0 || Rgeb (Rabs rho) 1 = false <->
  b >= 0 /\ sigma > 0 /\ Rabs rho < 1.
Proof.
  rewrite !orb_false_iff, Rltb_false, Rleb_false, Rgeb_false.
  split; intros; repeat split; try tauto; lra.
Qed.

Lemma svi_objective_invalid (a b rho m_param sigma : R) (k v : list R) (lambda_reg : R) :
  b < 0 \/ sigma <= 0 \/ Rabs rho >= 1 ->
  svi_objective [a; b; rho; m_param; sigma] k v lambda_reg = Ok penalty.
Proof.
  intros H; unfold svi_objective; simpl.
  now rewrite (proj2 (invalid_gate b rho sigma) H).
Qed.

Lemma svi_objective_valid (a b rho m_param sigma : R) (k v : list R) (lambda_reg : R) :
  b >= 0 -> sigma > 0 -> Rabs rho < 1 -> length k = length v ->
  svi_objective [a; b; rho; m_param; sigma] k v lambda_reg =
    Ok (squared_errors a b rho m_param sigma k v + lambda_reg * (b ^ 2 + sigma ^ 2)).
Proof.
  intros Hb Hs Hr Hlen; unfold svi_objective; simpl.
  rewrite (proj2 (valid_gate b rho sigma)) by tauto.
  rewrite svi_model_elementwise; simpl.
  unfold np.sub; rewrite broadcast_same_length by (now rewrite length_map).
  simpl; do 2 f_equal.
  rewrite np_sum_fold_right; unfold np.square, squared_errors.
  rewrite zip_with_combine, map_map; f_equal.
  clear Hlen; revert v; induction k as [|x k IH]; intros [|y v]; simpl;
    try reflexivity.
  now rewrite IH.
Qed.

(** C3: on a parameter set with [b < 0] or [sigma <= 0] or [|rho| >= 1] the
    objective returns the constant [1e10] whatever [k] and [v] are, even
    arrays whose shapes cannot be paired, so the model is not evaluated; on a
    parameter set inside all three bounds, with [k] and [v] of one length, it
    returns the sum of squared model-minus-market errors plus
    [lambda_reg * (b^2 + sigma^2)]. *)
Theorem svi_objective_cases (a b rho m_param sigma : R) (k v : list R) (lambda_reg : R) :
  (b < 0 \/ sigma <= 0 \/ Rabs rho >= 1 ->
     svi_objective [a; b; rho; m_param; sigma] k v lambda_reg = Ok 1e10) /\
  (b >= 0 -> sigma > 0 -> Rabs rho < 1 -> length k = length v ->
     svi_objective [a; b; rho; m_param; sigma] k v lambda_reg =
       Ok (fold_right Rplus 0
             (map (fun p =>
                     ((a + b * (rho * (fst p - m_param)
                                + sqrt ((fst p - m_param) ^ 2 + sigma ^ 2)))
                      - snd p) ^ 2)
                  (combine k v))
           + lambda_reg * (b ^ 2 + sigma ^ 2))).
Proof.
  split.
  - apply svi_objective_invalid.
  - apply svi_objective_valid.
Qed.

Lemma svi_objective_cases_witness :
  svi_objective [20; -1; 0; 0; 1] [0; 1; 2] [5; 6] 0 = Ok 1e10 /\
  svi_objective [20; 1; 0; 0; 1] [0] [21] (1 / 2) =
    Ok (fold_right Rplus 0
          (map (fun p =>
                  ((20 + 1 * (0 * (fst p - 0) + sqrt ((fst p - 0) ^ 2 + 1 ^ 2)))
                   - snd p) ^ 2)
               (combine [0] [21]))
        + 1 / 2 * (1 ^ 2 + 1 ^ 2)).
Proof.
  split.
  - apply (proj1 (svi_objective_cases 20 (-1) 0 0 1 [0; 1; 2] [5; 6] 0)).
    left; lra.
  - apply (proj2 (svi_objective_cases 20 1 0 0 1 [0] [21] (1 / 2))).
    + lra.
    + lra.
    + rewrite Rabs_R0; lra.
    + reflexivity.
Defined.

(** With valid parameters and arrays that cannot be paired the objective
    raises: the penalty branch is the only one that ignores [k] and [v]. *)
Example svi_objective_shape_mismatch :
  svi_objective [20; 1; 0; 0; 1] [0; 1; 2] [5; 6] 0 = Raise ValueError.
Proof.
  unfold svi_objective; simpl.
  rewrite (proj2 (valid_gate 1 0 1)) by (rewrite Rabs_R0; lra).
  reflexivity.
Qed.

(** ** The multi-start loop *)

Section CalibrationFacts.

Variable rng : Type.
Variable uniform : R -> R -> rng -> R * rng.
Variable minimize :
  (list R -> result R) -> list R -> list (xreal * xreal) -> result OptimizeResult.


Lemma attempts_length n k v lambda_reg base_a g :
  length (attempts rng uniform minimize n k v lambda_reg base_a g) = n.
Proof.
  revert g; induction n as [|n IH]; intros g; simpl; [reflexivity|].
  destruct (draw_x0 rng uniform base_a g) as [x0 g']; simpl; now rewrite IH.
Qed.

(** The loop is the left fold of [update_best] over the attempts it makes. *)
Lemma multi_start_fold n k v lambda_reg base_a st g :
  fst (multi_start rng uniform minimize n k v lambda_reg base_a st g) =
    fold_left update_best (attempts rng uniform minimize n k v lambda_reg base_a g) st.
Proof.
  revert st g; induction n as [|n IH]; intros st g; simpl; [reflexivity|].
  destruct (draw_x0 rng uniform base_a g) as [x0 g']; simpl; apply IH.
Qed.

Lemma tracks_init : tracks init_best [].
Proof. left; repeat split; constructor. Qed.

Lemma tracks_step st rs r :
  tracks st rs -> tracks (update_best st r) (rs ++ [r]).
Proof.
  unfold tracks, completed.
  intros [(Hp & Hv & Hall) | (res & Hin & Hp & Hv & Hmin)].
  - destruct r as [res|e]; simpl.
    + rewrite Hv; simpl. right; exists res; repeat split.
      * apply in_or_app; right; now left.
      * intros res' Hin'; apply in_app_or in Hin' as [Hin'|[Heq|[]]].
        -- rewrite Forall_forall in Hall; specialize (Hall _ Hin'); contradiction.
        -- injection Heq as <-; lra.
    + left; repeat split; trivial.
      apply Forall_app; split; [assumption|]; repeat constructor.
  - right. destruct r as [res0|e]; simpl.
    + rewrite Hv; simpl.
      destruct (Rltb (res_fun res0) (res_fun res)) eqn:Hlt.
      * apply Rltb_true in Hlt.
        exists res0; simpl; repeat split.
        -- apply in_or_app; right; now left.
        -- intros res' Hin'; apply in_app_or in Hin' as [Hin'|[Heq|[]]].
           ++ specialize (Hmin _ Hin'); lra.
           ++ injection Heq as <-; lra.
      * apply Rltb_false in Hlt.
        exists res; repeat split; trivial.
        -- apply in_or_app; now left.
        -- intros res' Hin'; apply in_app_or in Hin' as [Hin'|[Heq|[]]].
           ++ now apply Hmin.
           ++ injection Heq as <-; lra.
    + exists res; repeat split; trivial.
      * apply in_or_app; now left.
      * intros res' Hin'; apply in_app_or in Hin' as [Hin'|[Heq|[]]].
        -- now apply Hmin.
        -- discriminate.
Qed.

Lemma tracks_fold rs : forall st rs0,
  tracks st rs0 -> tracks (fold_left update_best rs st) (rs0 ++ rs).
Proof.
  induction rs as [|r rs IH]; intros st rs0 H; simpl.
  - now rewrite app_nil_r.
  - replace (rs0 ++ r :: rs) with ((rs0 ++ [r]) ++ rs)
      by (now rewrite <- app_assoc).
    apply IH, tracks_step, H.
Qed.

Lemma multi_start_tracks n k v lambda_reg base_a g :
  tracks (fst (multi_start rng uniform minimize n k v lambda_reg base_a init_best g))
         (attempts rng uniform minimize n k v lambda_reg base_a g).
Proof.
  rewrite multi_start_fold.
  apply (tracks_fold _ init_best []), tracks_init.
Qed.

(** On a non-empty [v] the call returns, with the state the loop ends in. *)
Lemma calibrate_svi_run_nonempty k v lambda_reg n g :
  v <> [] ->
  exists base_a,
    np.min v = Ok base_a /\
    calibrate_svi_run rng uniform minimize k v lambda_reg n g =
      Ok (multi_start rng uniform minimize n k v lambda_reg base_a init_best g).
Proof.
  intros Hv; destruct v as [|y v]; [contradiction|].
  eexists; split; reflexivity.
Qed.

Lemma calibrate_svi_of_run k v lambda_reg n g st g' :
  calibrate_svi_run rng uniform minimize k v lambda_reg n g = Ok (st, g') ->
  calibrate_svi rng uniform minimize k v lambda_reg n g = Ok (best_params st, g').
Proof. intros H; unfold calibrate_svi; now rewrite H. Qed.

End CalibrationFacts.

(** Two quotes at one log-moneyness with volatilities [0] and [200000]: the
    model takes one value there, so no parameter set brings the squared
    error under [2e10]. *)
Lemma contradictory_quotes_cost (a b rho m_param sigma lambda_reg : R) :
  b >= 0 -> sigma > 0 -> Rabs rho < 1 -> 0 <= lambda_reg ->
  exists f,
    svi_objective [a; b; rho; m_param; sigma] [0; 0] [0; 200000] lambda_reg = Ok f /\
    2 * penalty <= f.
Proof.
  intros Hb Hs Hr Hl.
  rewrite svi_objective_valid by (trivial; reflexivity).
  eexists; split; [reflexivity|].
  unfold squared_errors, penalty; simpl.
  set (w := svi_point a b rho m_param sigma 0).
  assert (Hreg : 0 <= lambda_reg * (b * (b * 1) + sigma * (sigma * 1))) by nra.
  pose proof (pow2_ge_0 (w - 100000)) as Hsq; simpl in Hsq.
  lra.
Qed.

(** The first start drawn by the midpoint generator. *)
Lemma draw_x0_mid (base_a : R) (g : nat) :
  draw_x0 nat uniform_mid base_a g =
    ([base_a + (-0.5 + 0.5) / 2; 0.1 + (-0.05 + 0.05) / 2; (-0.9 + 0.9) / 2;
      (-0.1 + 0.1) / 2; 0.1 + (0 + 0.1) / 2], S (S (S (S (S g))))).
Proof. reflexivity. Qed.

Lemma mid_start_valid :
  0.1 + (-0.05 + 0.05) / 2 >= 0 /\ 0.1 + (0 + 0.1) / 2 > 0 /\
  Rabs ((-0.9 + 0.9) / 2) < 1.
Proof.
  repeat split; try lra.
  replace ((-0.9 + 0.9) / 2) with 0 by lra.
  rewrite Rabs_R0; lra.
Qed.

(** C1, refuted as stated.  Two quotes at the same log-moneyness with
    volatilities [0] and [200000]: the only attempt completes on the start
    point, which is inside the bounds, and reports an objective value that
    is not below the penalty; the call returns that parameter vector, not
    [None]. *)
Lemma calibrate_svi_keeps_penalised_fit :
  exists p f,
    calibrate_svi_run nat uniform_mid minimize_stay [0; 0] [0; 200000] 0 1 0%nat =
      Ok ({| best_params := Some p; best_obj_val := Fin f |}, 5%nat) /\
    calibrate_svi nat uniform_mid minimize_stay [0; 0] [0; 200000] 0 1 0%nat =
      Ok (Some p, 5%nat) /\
    within_bounds p bounds /\
    svi_objective p [0; 0] [0; 200000] 0 = Ok f /\
    ~ f < penalty.
Proof.
  destruct mid_start_valid as (Hb & Hs & Hr).
  destruct (contradictory_quotes_cost (Rmin 0 200000 + (-0.5 + 0.5) / 2)
              _ _ ((-0.1 + 0.1) / 2) _ 0 Hb Hs Hr (Rle_refl 0)) as (f & Hf & Hge).
  exists [Rmin 0 200000 + (-0.5 + 0.5) / 2; 0.1 + (-0.05 + 0.05) / 2;
          (-0.9 + 0.9) / 2; (-0.1 + 0.1) / 2; 0.1 + (0 + 0.1) / 2], f.
  unfold calibrate_svi, calibrate_svi_run; simpl.
  unfold run_minimize, minimize_stay; rewrite Hf; simpl.
  split; [reflexivity|]; split; [reflexivity|]; split.
  { unfold within_bounds, bounds.
    repeat (constructor; [simpl; try tauto; lra|]); constructor. }
  split; [reflexivity|].
  unfold penalty in *; lra.
Qed.

Section CalibrationClaims.

Variable rng : Type.
Variable uniform : R -> R -> rng -> R * rng.
Variable minimize :
  (list R -> result R) -> list R -> list (xreal * xreal) -> result OptimizeResult.

(** On a non-empty [v] the call returns what the loop tracked. *)
Lemma calibrate_svi_selects (k v : list R) (lambda_reg : R) (n : nat) (g : rng) :
  v <> [] ->
  exists base_a st g',
    np.min v = Ok base_a /\
    calibrate_svi_run rng uniform minimize k v lambda_reg n g = Ok (st, g') /\
    calibrate_svi rng uniform minimize k v lambda_reg n g = Ok (best_params st, g') /\
    tracks st (attempts rng uniform minimize n k v lambda_reg base_a g).
Proof.
  intros Hv.
  destruct (calibrate_svi_run_nonempty rng uniform minimize k v lambda_reg n g Hv)
    as (base_a & Hmin & Hr).
  pose proof (multi_start_tracks rng uniform minimize n k v lambda_reg base_a g) as Ht.
  destruct (multi_start rng uniform minimize n k v lambda_reg base_a init_best g)
    as [st g'] eqn:Hrun.
  exists base_a, st, g'; repeat split; trivial.
  now apply calibrate_svi_of_run.
Qed.

(** C1, amended: on a non-empty [v], the call returns [None] whenever
    every optimizer attempt raised and was skipped; and whenever it returns
    a parameter vector, that vector is the [x] of an attempt that completed
    and the objective value kept with it is the value that attempt
    reported.  That value was compared with the running best only: it is
    never compared with the penalty and so need not be below it. *)
Theorem calibrate_svi_none_when_all_raised
  (k v : list R) (lambda_reg : R) (n : nat) (g : rng) (base_a : R) :
  np.min v = Ok base_a ->
  exists st g',
    calibrate_svi_run rng uniform minimize k v lambda_reg n g = Ok (st, g') /\
    calibrate_svi rng uniform minimize k v lambda_reg n g = Ok (best_params st, g') /\
    (Forall raised (attempts rng uniform minimize n k v lambda_reg base_a g) ->
       best_params st = None) /\
    (forall p, best_params st = Some p ->
       exists res,
         completed (attempts rng uniform minimize n k v lambda_reg base_a g) res /\
         res_x res = p /\ best_obj_val st = Fin (res_fun res)).
Proof.
  intros Hmin.
  pose proof (multi_start_tracks rng uniform minimize n k v lambda_reg base_a g) as Ht.
  destruct (multi_start rng uniform minimize n k v lambda_reg base_a init_best g)
    as [st g'] eqn:Hrun.
  assert (Hr : calibrate_svi_run rng uniform minimize k v lambda_reg n g = Ok (st, g'))
    by (unfold calibrate_svi_run; rewrite Hmin; simpl; now rewrite Hrun).
  exists st, g'; split; [exact Hr|].
  split; [now apply calibrate_svi_of_run|].
  simpl in Ht; split.
  - destruct Ht as [(Hp & _ & _) | (res & Hin & _ & _ & _)]; [trivial|].
    intros Hall; rewrite Forall_forall in Hall.
    destruct (Hall _ Hin).
  - intros p Hp.
    destruct Ht as [(Hn & _ & _) | (res & Hin & Hs & Hv & _)]; [congruence|].
    exists res; repeat split; trivial; congruence.
Qed.

(** C5, amended: for every start count [N] (so for [N >= 1]) and every
    non-empty [v], the call does not raise, and the parameter set it returns
    is the [x] of a completed attempt whose reported objective value is less
    than or equal to the value reported by each attempt that completed; with
    an empty [v] the call raises for every [N], [N = 1] included. *)
Theorem calibrate_svi_best_of_attempts
  (k v : list R) (lambda_reg : R) (n : nat) (g : rng) :
  v <> [] ->
  exists base_a st g',
    np.min v = Ok base_a /\
    length (attempts rng uniform minimize n k v lambda_reg base_a g) = n /\
    calibrate_svi_run rng uniform minimize k v lambda_reg n g = Ok (st, g') /\
    calibrate_svi rng uniform minimize k v lambda_reg n g = Ok (best_params st, g') /\
    forall p, best_params st = Some p ->
      exists res,
        completed (attempts rng uniform minimize n k v lambda_reg base_a g) res /\
        res_x res = p /\ best_obj_val st = Fin (res_fun res) /\
        forall res',
          completed (attempts rng uniform minimize n k v lambda_reg base_a g) res' ->
          res_fun res <= res_fun res'.
Proof.
  intros Hv.
  destruct (calibrate_svi_run_nonempty rng uniform minimize k v lambda_reg n g Hv)
    as (base_a & Hmin & Hr).
  pose proof (multi_start_tracks rng uniform minimize n k v lambda_reg base_a g) as Ht.
  destruct (multi_start rng uniform minimize n k v lambda_reg base_a init_best g)
    as [st g'] eqn:Hrun.
  exists base_a, st, g'.
  split; [exact Hmin|].
  split; [apply attempts_length|].
  split; [exact Hr|].
  split; [now apply calibrate_svi_of_run|].
  intros p Hp; simpl in Ht.
  destruct Ht as [(Hn & _ & _) | (res & Hin & Hs & Hval & Hle)]; [congruence|].
  exists res; repeat split; trivial; congruence.
Qed.

Lemma draw_x0_length base_a g : length (fst (draw_x0 rng uniform base_a g)) = 5%nat.
Proof.
  unfold draw_x0.
  repeat match goal with |- context [uniform ?a ?b ?s] => destruct (uniform a b s) end.
  reflexivity.
Qed.

Lemma attempts_shape n k v lambda_reg base_a g res :
  keeps_shape minimize ->
  completed (attempts rng uniform minimize n k v lambda_reg base_a g) res ->
  length (res_x res) = 5%nat.
Proof.
  intros Hshape; revert g; induction n as [|n IH]; intros g; simpl; [intros []|].
  pose proof (draw_x0_length base_a g) as Hlen.
  destruct (draw_x0 rng uniform base_a g) as [x0 g']; simpl in *.
  intros [Heq | Hin]; [|now apply (IH g')].
  unfold run_minimize in Heq; apply Hshape in Heq; congruence.
Qed.

(** On a non-empty [v] the call returns [None] or five numbers. *)
Lemma calibrate_svi_returns (k v : list R) (lambda_reg : R) (n : nat) (g : rng) :
  keeps_shape minimize -> v <> [] ->
  exists res g',
    calibrate_svi rng uniform minimize k v lambda_reg n g = Ok (res, g') /\
    (res = None \/ exists p, res = Some p /\ length p = 5%nat).
Proof.
  intros Hshape Hv.
  destruct (calibrate_svi_selects k v lambda_reg n g Hv)
    as (base_a & st & g' & _ & _ & Hc & Ht).
  exists (best_params st), g'; split; [exact Hc|].
  destruct Ht as [(Hn & _ & _) | (res & Hin & Hs & _ & _)]; [now left | right].
  exists (res_x res); split; [exact Hs|].
  now apply (attempts_shape n k v lambda_reg base_a g).
Qed.

End CalibrationClaims.

Lemma calibrate_svi_none_when_all_raised_witness :
  np.min [20; 21] = Ok (Rmin 20 21) /\
  exists st g',
    calibrate_svi_run nat uniform_mid minimize_raise [0; 1] [20; 21] 0 2 0%nat
      = Ok (st, g') /\
    calibrate_svi nat uniform_mid minimize_raise [0; 1] [20; 21] 0 2 0%nat
      = Ok (best_params st, g') /\
    (Forall raised
       (attempts nat uniform_mid minimize_raise 2 [0; 1] [20; 21] 0 (Rmin 20 21) 0%nat) ->
       best_params st = None) /\
    (forall p, best_params st = Some p ->
       exists res,
         completed
           (attempts nat uniform_mid minimize_raise 2 [0; 1] [20; 21] 0 (Rmin 20 21) 0%nat)
           res /\
         res_x res = p /\ best_obj_val st = Fin (res_fun res)).
Proof.
  split; [reflexivity|].
  apply (calibrate_svi_none_when_all_raised nat uniform_mid minimize_raise
           [0; 1] [20; 21] 0 2 0%nat (Rmin 20 21)).
  reflexivity.
Defined.

(** The run of the witness above returns [None]: both attempts raise. *)
Example calibrate_svi_all_raise :
  calibrate_svi nat uniform_mid minimize_raise [0; 1] [20; 21] 0 2 0%nat
    = Ok (None, 10%nat).
Proof. reflexivity. Qed.

(** C5, refuted as stated: with an empty [v] a run with one start raises. *)
Lemma calibrate_svi_single_start_raises :
  calibrate_svi nat uniform_mid minimize_stay [] [] 0 1 0%nat = Raise ValueError.
Proof. reflexivity. Qed.

Lemma calibrate_svi_best_of_attempts_witness :
  [20; 21] <> [] /\
  exists base_a st g',
    np.min [20; 21] = Ok base_a /\
    length (attempts nat uniform_mid minimize_stay 1 [0; 1] [20; 21] 0 base_a 0%nat)
      = 1%nat /\
    calibrate_svi_run nat uniform_mid minimize_stay [0; 1] [20; 21] 0 1 0%nat
      = Ok (st, g') /\
    calibrate_svi nat uniform_mid minimize_stay [0; 1] [20; 21] 0 1 0%nat
      = Ok (best_params st, g') /\
    forall p, best_params st = Some p ->
      exists res,
        completed (attempts nat uniform_mid minimize_stay 1 [0; 1] [20; 21] 0 base_a 0%nat)
          res /\
        res_x res = p /\ best_obj_val st = Fin (res_fun res) /\
        forall res',
          completed
            (attempts nat uniform_mid minimize_stay 1 [0; 1] [20; 21] 0 base_a 0%nat) res' ->
          res_fun res <= res_fun res'.
Proof.
  split; [discriminate|].
  apply (calibrate_svi_best_of_attempts nat uniform_mid minimize_stay
           [0; 1] [20; 21] 0 1 0%nat).
  discriminate.
Defined.

(** The optimizer that stops at its start keeps the shape of the start. *)
Lemma minimize_stay_keeps_shape : keeps_shape minimize_stay.
Proof.
  intros f x0 bs res H; unfold minimize_stay in H.
  destruct (f x0); simpl in H; [|discriminate].
  now injection H as <-.
Qed.

(** ** The sampling grid *)

Lemma set_last_snoc (xs : list R) (x v : R) : np.set_last (xs ++ [x]) v = xs ++ [v].
Proof.
  unfold np.set_last.
  destruct (xs ++ [x]) eqn:E; [now destruct xs|].
  now rewrite <- E, removelast_last.
Qed.

(** With at least two samples the overwritten endpoint is the value the
    affine formula gives, so the whole grid is affine in the index. *)
Lemma linspace_affine (start stop : R) (m : nat) :
  np.linspace start stop (S (S m)) =
    map (fun i => start + INR i * ((stop - start) / INR (S m))) (seq 0 (S (S m))).
Proof.
  unfold np.linspace, np.linspace_raw.
  replace (1 <? S (S m))%nat with true by reflexivity.
  replace (S (S m) - 1)%nat with (S m) by lia.
  rewrite (seq_S (S m) 0), !map_app; simpl map at 2 4.
  rewrite set_last_snoc; f_equal.
  - apply map_ext; intros i; lra.
  - f_equal; simpl Nat.add.
    assert (INR (S m) <> 0) by (apply not_0_INR; discriminate).
    field; assumption.
Qed.

Lemma linspace_100_length (start stop : R) : length (np.linspace start stop 100) = 100%nat.
Proof. now rewrite linspace_affine, length_map, length_seq. Qed.

Lemma linspace_100_nth (start stop : R) (i : nat) :
  (i < 100)%nat ->
  nth_error (np.linspace start stop 100) i = Some (start + INR i * ((stop - start) / 99)).
Proof.
  intros Hi; rewrite linspace_affine, nth_error_map.
  rewrite nth_error_seq; try lia.
  replace (i <? 100)%nat with true by (symmetry; now apply Nat.ltb_lt).
  simpl Nat.add; cbn [option_map].
  assert (H99 : INR 99 = 99) by (simpl; lra).
  now rewrite H99.
Qed.

(** ** [min] and [max] *)

Lemma fold_min_least (xs : list R) (x : R) :
  least (fold_left (fun m y => if Rltb y m then y else m) xs x) (x :: xs).
Proof.
  revert x; induction xs as [|y xs IH]; intros x; simpl.
  - split; [now left | intros z [<-|[]]; lra].
  - destruct (Rltb y x) eqn:E.
    + apply Rltb_true in E; destruct (IH y) as [Hin Hle]; split.
      * right; exact Hin.
      * intros z [<-|Hz]; [|now apply Hle].
        specialize (Hle y (or_introl eq_refl)); lra.
    + apply Rltb_false in E; destruct (IH x) as [Hin Hle]; split.
      * destruct Hin as [<-|Hin]; [now left | right; now right].
      * intros z [<-|[<-|Hz]].
        -- apply Hle; now left.
        -- specialize (Hle x (or_introl eq_refl)); lra.
        -- apply Hle; now right.
Qed.

Lemma fold_max_greatest (xs : list R) (x : R) :
  greatest (fold_left (fun m y => if Rltb m y then y else m) xs x) (x :: xs).
Proof.
  revert x; induction xs as [|y xs IH]; intros x; simpl.
  - split; [now left | intros z [<-|[]]; lra].
  - destruct (Rltb x y) eqn:E.
    + apply Rltb_true in E; destruct (IH y) as [Hin Hle]; split.
      * right; exact Hin.
      * intros z [<-|Hz]; [|now apply Hle].
        specialize (Hle y (or_introl eq_refl)); lra.
    + apply Rltb_false in E; destruct (IH x) as [Hin Hle]; split.
      * destruct Hin as [<-|Hin]; [now left | right; now right].
      * intros z [<-|[<-|Hz]].
        -- apply Hle; now left.
        -- specialize (Hle x (or_introl eq_refl)); lra.
        -- apply Hle; now right.
Qed.

Lemma py_min_least (xs : list R) (lo : R) : py_min xs = Ok lo -> least lo xs.
Proof.
  destruct xs as [|x xs]; simpl; [discriminate|].
  intros H; injection H as <-; apply fold_min_least.
Qed.

Lemma py_max_greatest (xs : list R) (hi : R) : py_max xs = Ok hi -> greatest hi xs.
Proof.
  destruct xs as [|x xs]; simpl; [discriminate|].
  intros H; injection H as <-; apply fold_max_greatest.
Qed.

Lemma least_le_greatest (lo hi : R) (xs : list R) :
  least lo xs -> greatest hi xs -> lo <= hi.
Proof. intros [Hin _] [_ Hle]; now apply Hle. Qed.

(** ** The rows of one maturity *)

Lemma append_rows_maps (maturity : R) (label : string) (f g : R -> R)
  (ks : list R) : forall (pre : list R) (acc : list pyrecord),
  append_rows (seq (length pre) (length ks)) maturity label
    (pre ++ ks) (map f (pre ++ ks)) (map g (pre ++ ks)) acc =
  Ok (acc ++ map (fun x => row_dict maturity label x (f x) (exp x) (g x)) ks).
Proof.
  induction ks as [|x ks IH]; intros pre acc; simpl.
  - now rewrite app_nil_r.
  - unfold surface_row, np.getitem.
    rewrite !nth_error_map, nth_error_app2, Nat.sub_diag by lia; simpl.
    replace (pre ++ x :: ks) with ((pre ++ [x]) ++ ks) by (now rewrite <- app_assoc).
    replace (S (length pre)) with (length (pre ++ [x]))
      by (rewrite length_app; simpl; lia).
    rewrite IH, <- app_assoc; reflexivity.
Qed.

Lemma sample_curve_ok (maturity : R) (k : list R) (a b rho m_param sigma : R)
  (spot_price : R) (label : string) (acc : list pyrecord) (lo hi : R) :
  py_min k = Ok lo -> py_max k = Ok hi ->
  sample_curve maturity k [a; b; rho; m_param; sigma] spot_price label acc =
    Ok (acc ++ curve_rows maturity label spot_price a b rho m_param sigma lo hi).
Proof.
  intros Hlo Hhi; unfold sample_curve; cbn [unpack5 rbind].
  rewrite Hlo, Hhi; cbn [rbind].
  rewrite svi_model_elementwise; cbn [rbind].
  unfold np.scalar_mul, np.exp; rewrite map_map.
  apply (append_rows_maps maturity label (fun x => spot_price * exp x)
           (svi_point a b rho m_param sigma) _ []).
Qed.

Lemma sample_curve_inv (maturity : R) (k params : list R) (spot_price : R)
  (label : string) (acc rows : list pyrecord) :
  sample_curve maturity k params spot_price label acc = Ok rows ->
  exists a b rho m_param sigma lo hi,
    params = [a; b; rho; m_param; sigma] /\
    py_min k = Ok lo /\ py_max k = Ok hi /\
    rows = acc ++ curve_rows maturity label spot_price a b rho m_param sigma lo hi.
Proof.
  intros H.
  destruct params as [|a [|b [|rho [|m_param [|sigma [|]]]]]];
    try (unfold sample_curve in H; cbn [unpack5 rbind] in H; discriminate).
  destruct (py_min k) as [lo|] eqn:Hlo;
    [|unfold sample_curve in H; cbn [unpack5 rbind] in H; rewrite Hlo in H;
      discriminate].
  destruct (py_max k) as [hi|] eqn:Hhi;
    [|unfold sample_curve in H; cbn [unpack5 rbind] in H; rewrite Hlo, Hhi in H;
      discriminate].
  rewrite (sample_curve_ok _ _ _ _ _ _ _ _ _ _ lo hi Hlo Hhi) in H.
  injection H as <-.
  now exists a, b, rho, m_param, sigma, lo, hi.
Qed.

Lemma curve_rows_length T label spot a b rho m_param sigma lo hi :
  length (curve_rows T label spot a b rho m_param sigma lo hi) = 100%nat.
Proof. unfold curve_rows; now rewrite length_map, linspace_100_length. Qed.

Lemma has_maturity_row_dict (T T' : R) label x s mn v :
  has_maturity T (row_dict T' label x s mn v) = if Req_dec_T T' T then true else false.
Proof. reflexivity. Qed.

Lemma rows_of_maturity_app (T : R) (xs ys : list pyrecord) :
  rows_of_maturity T (xs ++ ys) = rows_of_maturity T xs ++ rows_of_maturity T ys.
Proof. apply filter_app. Qed.

Lemma rows_of_maturity_curve T label spot a b rho m_param sigma lo hi :
  rows_of_maturity T (curve_rows T label spot a b rho m_param sigma lo hi) =
    curve_rows T label spot a b rho m_param sigma lo hi.
Proof.
  unfold rows_of_maturity, curve_rows.
  induction (np.linspace (lo - 0.1) (hi + 0.1) 100) as [|x xs IH]; simpl; [reflexivity|].
  rewrite has_maturity_row_dict.
  destruct (Req_dec_T T T) as [_|Hne]; [|now destruct Hne].
  f_equal; exact IH.
Qed.

Section GeneratorFacts.

Variable rng : Type.
Variable uniform : R -> R -> rng -> R * rng.
Variable minimize :
  (list R -> result R) -> list R -> list (xreal * xreal) -> result OptimizeResult.

Variable imp_vol_data : QuoteTable.
Variables spot_price reg_weight : R.
Variable multi_start_count : nat.
Variable option_data_type : string.

(** The three ways an iteration ends without raising. *)
Lemma maturity_step_inv (maturity : R) (acc rows : list pyrecord) (g g' : rng) :
  maturity_step rng uniform minimize imp_vol_data spot_price reg_weight
    multi_start_count option_data_type maturity acc g = Ok (rows, g') ->
  let sl := maturity_slice imp_vol_data maturity in
  ((length sl < 5)%nat /\ rows = acc /\ g' = g) \/
  ((5 <= length sl)%nat /\ rows = acc /\
     calibrate_svi rng uniform minimize (slice_k sl) (slice_v sl) reg_weight
       multi_start_count g = Ok (None, g')) \/
  ((5 <= length sl)%nat /\
     exists a b rho m_param sigma lo hi,
       calibrate_svi rng uniform minimize (slice_k sl) (slice_v sl) reg_weight
         multi_start_count g = Ok (Some [a; b; rho; m_param; sigma], g') /\
       py_min (slice_k sl) = Ok lo /\ py_max (slice_k sl) = Ok hi /\
       rows = acc ++ curve_rows maturity option_data_type spot_price
                       a b rho m_param sigma lo hi).
Proof.
  intros H sl; unfold maturity_step in H; fold sl in H.
  destruct (length sl <? 5)%nat eqn:Hlen.
  - apply Nat.ltb_lt in Hlen; injection H as <- <-; now left.
  - apply Nat.ltb_ge in Hlen; right.
    destruct (calibrate_svi rng uniform minimize (slice_k sl) (slice_v sl)
                reg_weight multi_start_count g) as [[params g1]|e] eqn:Hc;
      simpl in H; [|discriminate].
    destruct params as [params|].
    + right; split; [exact Hlen|].
      destruct (sample_curve maturity (slice_k sl) params spot_price
                  option_data_type acc) as [rows'|e] eqn:Hs; simpl in H; [|discriminate].
      injection H as <- <-.
      apply sample_curve_inv in Hs
        as (a & b & rho & m_param & sigma & lo & hi & -> & Hlo & Hhi & ->).
      now exists a, b, rho, m_param, sigma, lo, hi.
    + injection H as <- <-; now left.
Qed.

(** An iteration over a slice of fewer than five quotes changes nothing. *)
Lemma maturity_step_skip (maturity : R) (acc : list pyrecord) (g : rng) :
  (length (maturity_slice imp_vol_data maturity) < 5)%nat ->
  maturity_step rng uniform minimize imp_vol_data spot_price reg_weight
    multi_start_count option_data_type maturity acc g = Ok (acc, g).
Proof.
  intros H; unfold maturity_step.
  now rewrite (proj2 (Nat.ltb_lt _ _) H).
Qed.

Lemma maturity_loop_app (ms1 ms2 : list R) : forall (acc : list pyrecord) (g : rng),
  maturity_loop rng uniform minimize (ms1 ++ ms2) imp_vol_data spot_price reg_weight
    multi_start_count option_data_type acc g =
  (r <- maturity_loop rng uniform minimize ms1 imp_vol_data spot_price reg_weight
          multi_start_count option_data_type acc g ;;
   maturity_loop rng uniform minimize ms2 imp_vol_data spot_price reg_weight
     multi_start_count option_data_type (fst r) (snd r)).
Proof.
  induction ms1 as [|T ms1 IH]; intros acc g; simpl; [reflexivity|].
  destruct (maturity_step rng uniform minimize imp_vol_data spot_price reg_weight
              multi_start_count option_data_type T acc g) as [[rows g1]|e];
    simpl; [apply IH | reflexivity].
Qed.

End GeneratorFacts.

Lemma slice_v_scaled (sl : list Quote) :
  slice_v sl = map (fun q => ImpliedVolatility q * 100) sl.
Proof. unfold slice_v, np.mul_scalar; now rewrite map_map. Qed.

Lemma emitted_weaken rng uniform minimize table spot reg n label ms ms' row :
  (forall T, In T ms -> In T ms') ->
  emitted rng uniform minimize table spot reg n label ms row ->
  emitted rng uniform minimize table spot reg n label ms' row.
Proof.
  intros Hsub (T & g1 & g2 & a & b & rho & m & sigma & lo & hi & x & HT & H).
  exists T, g1, g2, a, b, rho, m, sigma, lo, hi, x; split; [now apply Hsub | exact H].
Qed.

Lemma emitted_maturity rng uniform minimize table spot reg n label ms row :
  emitted rng uniform minimize table spot reg n label ms row ->
  exists T, In T ms /\ (5 <= length (maturity_slice table T))%nat /\
            num_cell "TimeToExpiry" row = Some T.
Proof.
  intros (T & g1 & g2 & a & b & rho & m & sigma & lo & hi & x & HT & Hlen & _ & _ & _ & _ & ->).
  exists T; repeat split; assumption.
Qed.

Section GeneratorRows.

Variable rng : Type.
Variable uniform : R -> R -> rng -> R * rng.
Variable minimize :
  (list R -> result R) -> list R -> list (xreal * xreal) -> result OptimizeResult.

Variable imp_vol_data : QuoteTable.
Variables spot_price reg_weight : R.
Variable multi_start_count : nat.
Variable option_data_type : string.

(** The loop only appends, and every appended row is [emitted]. *)
Lemma maturity_loop_rows (ms : list R) : forall (acc rows : list pyrecord) (g g' : rng),
  maturity_loop rng uniform minimize ms imp_vol_data spot_price reg_weight
    multi_start_count option_data_type acc g = Ok (rows, g') ->
  exists new,
    rows = acc ++ new /\
    Forall (emitted rng uniform minimize imp_vol_data spot_price reg_weight
              multi_start_count option_data_type ms) new.
Proof.
  induction ms as [|T ms IH]; intros acc rows g g' H; simpl in H.
  - injection H as <- <-; exists []; split; [now rewrite app_nil_r | constructor].
  - destruct (maturity_step rng uniform minimize imp_vol_data spot_price reg_weight
                multi_start_count option_data_type T acc g) as [[rows1 g1]|e] eqn:Hstep;
      simpl in H; [|discriminate].
    apply IH in H as (new & -> & Hnew).
    assert (Hnew' : Forall (emitted rng uniform minimize imp_vol_data spot_price
                              reg_weight multi_start_count option_data_type (T :: ms)) new).
    { eapply Forall_impl; [|exact Hnew].
      intros row; apply emitted_weaken; intros T' HT'; now right. }
    apply maturity_step_inv in Hstep; cbv zeta in Hstep.
    destruct Hstep as [(_ & -> & _) | [(_ & -> & _) | (Hlen & Hfit)]];
      [now exists new | now exists new |].
    destruct Hfit as (a & b & rho & m & sigma & lo & hi & Hc & Hlo & Hhi & ->).
    exists (curve_rows T option_data_type spot_price a b rho m sigma lo hi ++ new).
    split; [now rewrite app_assoc|].
    apply Forall_app; split; [|exact Hnew'].
    unfold curve_rows; apply Forall_forall; intros row Hrow.
    apply in_map_iff in Hrow as (x & <- & Hx).
    exists T, g, g1, a, b, rho, m, sigma, lo, hi, x; cbv zeta.
    rewrite <- slice_v_scaled.
    repeat split; trivial; now left.
Qed.

(** Rows emitted for other maturities are not rows of [T]. *)
Lemma rows_of_other_maturities (T : R) (ms : list R) (new : list pyrecord) :
  ~ In T ms ->
  Forall (emitted rng uniform minimize imp_vol_data spot_price reg_weight
            multi_start_count option_data_type ms) new ->
  rows_of_maturity T new = [].
Proof.
  intros HT Hnew; unfold rows_of_maturity.
  induction Hnew as [|row new Hrow _ IH]; simpl; [reflexivity|].
  apply emitted_maturity in Hrow as (T' & HT' & _ & Hcell).
  unfold has_maturity; rewrite Hcell.
  destruct (Req_dec_T T' T) as [->|_]; [contradiction | exact IH].
Qed.

Lemma generate_data (ms : list R) (rows : list pyrecord) (g g' : rng) :
  maturity_loop rng uniform minimize ms imp_vol_data spot_price reg_weight
    multi_start_count option_data_type [] g = Ok (rows, g') ->
  exists out,
    generate_svi_calibrated_data rng uniform minimize ms imp_vol_data spot_price
      reg_weight multi_start_count option_data_type g = Ok (out, g') /\
    data out = rows.
Proof.
  intros H; unfold generate_svi_calibrated_data; rewrite H; simpl.
  destruct rows; eexists; split; reflexivity.
Qed.

Lemma generate_inv (ms : list R) (out : DataFrame) (g g' : rng) :
  generate_svi_calibrated_data rng uniform minimize ms imp_vol_data spot_price
    reg_weight multi_start_count option_data_type g = Ok (out, g') ->
  maturity_loop rng uniform minimize ms imp_vol_data spot_price reg_weight
    multi_start_count option_data_type [] g = Ok (data out, g').
Proof.
  unfold generate_svi_calibrated_data.
  destruct (maturity_loop rng uniform minimize ms imp_vol_data spot_price reg_weight
              multi_start_count option_data_type [] g) as [[rows g1]|e]; simpl;
    [|discriminate].
  destruct rows; intros H; injection H as <- <-; reflexivity.
Qed.

End GeneratorRows.

(** ** Claims on the surface generator *)

Lemma curve_rows_grid T label spot a b rho m_param sigma lo hi :
  map (num_cell "LogMoneyness") (curve_rows T label spot a b rho m_param sigma lo hi) =
    map Some (np.linspace (lo - 0.1) (hi + 0.1) 100).
Proof. unfold curve_rows; rewrite map_map; reflexivity. Qed.

(** The grid of one maturity: endpoints, spacing and order. *)
Lemma grid_shape (lo hi : R) :
  lo <= hi ->
  let grid := np.linspace (lo - 0.1) (hi + 0.1) 100 in
  length grid = 100%nat /\
  nth_error grid 0 = Some (lo - 0.1) /\
  nth_error grid 99 = Some (hi + 0.1) /\
  forall i x y, nth_error grid i = Some x -> nth_error grid (S i) = Some y ->
    y - x = (hi + 0.1 - (lo - 0.1)) / 99 /\ x < y.
Proof.
  intros Hle grid; unfold grid.
  split; [apply linspace_100_length|].
  split; [rewrite linspace_100_nth by lia; f_equal; simpl; lra|].
  split.
  - rewrite linspace_100_nth by lia; f_equal.
    assert (H99 : INR 99 = 99) by (simpl; lra).
    rewrite H99; lra.
  - intros i x y Hx Hy.
    assert (Hi : (S i < 100)%nat).
    { rewrite <- (linspace_100_length (lo - 0.1) (hi + 0.1)).
      apply nth_error_Some; congruence. }
    rewrite linspace_100_nth in Hx, Hy by lia.
    assert (Ex : x = lo - 0.1 + INR i * ((hi + 0.1 - (lo - 0.1)) / 99))
      by congruence.
    assert (Ey : y = lo - 0.1 + INR (S i) * ((hi + 0.1 - (lo - 0.1)) / 99))
      by congruence.
    rewrite Ex, Ey, S_INR; split; lra.
Qed.

Section GeneratorClaims.

Variable rng : Type.
Variable uniform : R -> R -> rng -> R * rng.
Variable minimize :
  (list R -> result R) -> list R -> list (xreal * xreal) -> result OptimizeResult.

Variable imp_vol_data : QuoteTable.
Variables spot_price reg_weight : R.
Variable multi_start_count : nat.
Variable option_data_type : string.

(** A fitted maturity inside a run that returned: what its iteration
    appended, and what the iterations before and after it appended. *)
Lemma generated_block (ms1 ms2 : list R) (T : R) (acc1 : list pyrecord)
  (g g1 g2 gout : rng) (params : list R) (out : DataFrame) :
  maturity_loop rng uniform minimize ms1 imp_vol_data spot_price reg_weight
    multi_start_count option_data_type [] g = Ok (acc1, g1) ->
  (5 <= length (maturity_slice imp_vol_data T))%nat ->
  calibrate_svi rng uniform minimize
    (slice_k (maturity_slice imp_vol_data T)) (slice_v (maturity_slice imp_vol_data T))
    reg_weight multi_start_count g1 = Ok (Some params, g2) ->
  generate_svi_calibrated_data rng uniform minimize (ms1 ++ T :: ms2) imp_vol_data
    spot_price reg_weight multi_start_count option_data_type g = Ok (out, gout) ->
  exists a b rho m_param sigma lo hi new2,
    params = [a; b; rho; m_param; sigma] /\
    py_min (slice_k (maturity_slice imp_vol_data T)) = Ok lo /\
    py_max (slice_k (maturity_slice imp_vol_data T)) = Ok hi /\
    maturity_step rng uniform minimize imp_vol_data spot_price reg_weight
      multi_start_count option_data_type T acc1 g1 =
      Ok (acc1 ++ curve_rows T option_data_type spot_price a b rho m_param sigma lo hi,
          g2) /\
    data out =
      (acc1 ++ curve_rows T option_data_type spot_price a b rho m_param sigma lo hi)
      ++ new2 /\
    Forall (emitted rng uniform minimize imp_vol_data spot_price reg_weight
              multi_start_count option_data_type ms1) acc1 /\
    Forall (emitted rng uniform minimize imp_vol_data spot_price reg_weight
              multi_start_count option_data_type ms2) new2.
Proof.
  intros Hpre Hlen Hcal Hgen.
  apply generate_inv in Hgen.
  rewrite maturity_loop_app, Hpre in Hgen; cbn [rbind fst snd maturity_loop] in Hgen.
  destruct (maturity_step rng uniform minimize imp_vol_data spot_price reg_weight
              multi_start_count option_data_type T acc1 g1) as [[rows1 g1']|e] eqn:Hstep;
    cbn [rbind fst snd] in Hgen; [|discriminate].
  pose proof Hstep as Hinv.
  apply maturity_step_inv in Hinv; cbv zeta in Hinv.
  destruct Hinv as [(Hlt & _) | [(_ & _ & Hnone) | (_ & Hfit)]];
    [lia | congruence |].
  destruct Hfit as (a & b & rho & m & sigma & lo & hi & Hc & Hlo & Hhi & ->).
  rewrite Hcal in Hc; injection Hc as -> ->.
  apply maturity_loop_rows in Hpre as (new1 & -> & Hnew1).
  apply maturity_loop_rows in Hgen as (new2 & Hout & Hnew2).
  exists a, b, rho, m, sigma, lo, hi, new2; repeat split; trivial.
Qed.

(** C4: take a maturity [T] with at least five close quotes whose
    calibration returned a parameter set, in a run that returned a table.
    The loop iteration for [T] appends a block of exactly 100 rows, all with
    [TimeToExpiry = T]; their [LogMoneyness] values start at [min k - 0.1],
    end at [max k + 0.1], consecutive values differ by the same step
    [(max k - min k + 0.2) / 99], and they are strictly increasing, where
    [min k] and [max k] are the least and the greatest log-moneyness of the
    slice.  When [T] occurs once in the list of maturities, that block is
    the whole set of rows of the returned table with [TimeToExpiry = T]. *)
Theorem fitted_maturity_emits_100_rows (ms1 ms2 : list R) (T : R)
  (acc1 : list pyrecord) (g g1 g2 gout : rng) (params : list R) (out : DataFrame) :
  maturity_loop rng uniform minimize ms1 imp_vol_data spot_price reg_weight
    multi_start_count option_data_type [] g = Ok (acc1, g1) ->
  (5 <= length (maturity_slice imp_vol_data T))%nat ->
  calibrate_svi rng uniform minimize
    (slice_k (maturity_slice imp_vol_data T)) (slice_v (maturity_slice imp_vol_data T))
    reg_weight multi_start_count g1 = Ok (Some params, g2) ->
  generate_svi_calibrated_data rng uniform minimize (ms1 ++ T :: ms2) imp_vol_data
    spot_price reg_weight multi_start_count option_data_type g = Ok (out, gout) ->
  exists lo hi grid block,
    least lo (map LogMoneyness (maturity_slice imp_vol_data T)) /\
    greatest hi (map LogMoneyness (maturity_slice imp_vol_data T)) /\
    maturity_step rng uniform minimize imp_vol_data spot_price reg_weight
      multi_start_count option_data_type T acc1 g1 = Ok (acc1 ++ block, g2) /\
    length block = 100%nat /\
    Forall (fun row => num_cell "TimeToExpiry" row = Some T) block /\
    map (num_cell "LogMoneyness") block = map Some grid /\
    length grid = 100%nat /\
    nth_error grid 0 = Some (lo - 0.1) /\
    nth_error grid 99 = Some (hi + 0.1) /\
    (forall i x y, nth_error grid i = Some x -> nth_error grid (S i) = Some y ->
       y - x = (hi + 0.1 - (lo - 0.1)) / 99 /\ x < y) /\
    (~ In T ms1 -> ~ In T ms2 -> rows_of_maturity T (data out) = block).
Proof.
  intros Hpre Hlen Hcal Hgen.
  destruct (generated_block ms1 ms2 T acc1 g g1 g2 gout params out
              Hpre Hlen Hcal Hgen)
    as (a & b & rho & m & sigma & lo & hi & new2 & _ & Hlo & Hhi & Hstep & Hout
        & Hnew1 & Hnew2).
  apply py_min_least in Hlo; apply py_max_greatest in Hhi.
  exists lo, hi, (np.linspace (lo - 0.1) (hi + 0.1) 100),
    (curve_rows T option_data_type spot_price a b rho m sigma lo hi).
  split; [exact Hlo|]; split; [exact Hhi|]; split; [exact Hstep|].
  split; [apply curve_rows_length|].
  split.
  { unfold curve_rows; apply Forall_forall; intros row Hrow.
    apply in_map_iff in Hrow as (x & <- & _); reflexivity. }
  split; [apply curve_rows_grid|].
  pose proof (grid_shape lo hi (least_le_greatest lo hi _ Hlo Hhi)) as Hgrid.
  cbv zeta in Hgrid; destruct Hgrid as (Hlen' & H0 & H99 & Hsp).
  repeat (split; [assumption|]).
  intros H1 H2; rewrite Hout, !rows_of_maturity_app.
  rewrite (rows_of_other_maturities _ _ _ _ _ _ _ _ T ms1 acc1 H1 Hnew1).
  rewrite (rows_of_other_maturities _ _ _ _ _ _ _ _ T ms2 new2 H2 Hnew2).
  now rewrite rows_of_maturity_curve, app_nil_r.
Qed.

End GeneratorClaims.

(** ** Running the generator on the end-to-end scenario *)

Lemma isclose_refl (x : R) : np.isclose x x = true.
Proof.
  unfold np.isclose; apply Rleb_true.
  replace (x - x) with 0 by lra; rewrite Rabs_R0.
  pose proof (Rabs_pos x); lra.
Qed.

Lemma scenario_slice : maturity_slice scenario_table 0.5 = scenario_quotes.
Proof.
  unfold maturity_slice, scenario_table, scenario_quotes.
  cbn [quotes filter TimeToExpiry]; rewrite !isclose_refl; reflexivity.
Qed.

(** With the midpoint generator and the optimizer that stops at its start,
    one start on paired, non-empty data returns that start. *)
Lemma calibrate_svi_mid_stay (k v : list R) (lambda_reg base_a : R) (g : nat) :
  np.min v = Ok base_a -> length k = length v ->
  calibrate_svi nat uniform_mid minimize_stay k v lambda_reg 1 g =
    Ok (Some (mid_start base_a), S (S (S (S (S g))))).
Proof.
  intros Hmin Hlen; unfold calibrate_svi, calibrate_svi_run.
  rewrite Hmin; cbn [rbind multi_start]; rewrite draw_x0_mid.
  unfold run_minimize, minimize_stay.
  destruct mid_start_valid as (Hb & Hs & Hr).
  rewrite svi_objective_valid by assumption.
  reflexivity.
Qed.

(** One fitted maturity alone: the table is built from its 100 rows. *)
Lemma generate_singleton (rng : Type) (uniform : R -> R -> rng -> R * rng)
  (minimize : (list R -> result R) -> list R -> list (xreal * xreal)
              -> result OptimizeResult)
  (table : QuoteTable) (spot reg : R) (n : nat) (label : string) (T : R)
  (g g2 : rng) (a b rho m_param sigma lo hi : R) :
  (5 <= length (maturity_slice table T))%nat ->
  calibrate_svi rng uniform minimize (slice_k (maturity_slice table T))
    (slice_v (maturity_slice table T)) reg n g
    = Ok (Some [a; b; rho; m_param; sigma], g2) ->
  py_min (slice_k (maturity_slice table T)) = Ok lo ->
  py_max (slice_k (maturity_slice table T)) = Ok hi ->
  generate_svi_calibrated_data rng uniform minimize [T] table spot reg n label g =
    Ok (DataFrame_of_records (curve_rows T label spot a b rho m_param sigma lo hi), g2).
Proof.
  intros Hlen Hcal Hlo Hhi.
  unfold generate_svi_calibrated_data; cbn [maturity_loop].
  unfold maturity_step.
  rewrite (proj2 (Nat.ltb_ge _ _) Hlen), Hcal; cbn [rbind].
  rewrite (sample_curve_ok _ _ _ _ _ _ _ _ _ _ lo hi Hlo Hhi); cbn [rbind fst snd app].
  pose proof (curve_rows_length T label spot a b rho m_param sigma lo hi) as Hn.
  destruct (curve_rows T label spot a b rho m_param sigma lo hi); [discriminate|].
  reflexivity.
Qed.

Lemma scenario_fit (table : QuoteTable) :
  maturity_slice table 0.5 = scenario_quotes ->
  exists base_a lo hi,
    calibrate_svi nat uniform_mid minimize_stay
      (slice_k (maturity_slice table 0.5))
      (slice_v (maturity_slice table 0.5)) 0 1 0%nat
      = Ok (Some (mid_start base_a), 5%nat) /\
    py_min (slice_k (maturity_slice table 0.5)) = Ok lo /\
    py_max (slice_k (maturity_slice table 0.5)) = Ok hi.
Proof.
  intros ->.
  eexists; eexists; eexists; split; [|split; reflexivity].
  apply calibrate_svi_mid_stay; reflexivity.
Qed.

Lemma scenario_generate (table : QuoteTable) :
  maturity_slice table 0.5 = scenario_quotes ->
  exists base_a lo hi a b rho m_param sigma,
    mid_start base_a = [a; b; rho; m_param; sigma] /\
    calibrate_svi nat uniform_mid minimize_stay
      (slice_k (maturity_slice table 0.5))
      (slice_v (maturity_slice table 0.5)) 0 1 0%nat
      = Ok (Some (mid_start base_a), 5%nat) /\
    generate_svi_calibrated_data nat uniform_mid minimize_stay [0.5] table
      100 0 1 "Both" 0%nat =
      Ok (DataFrame_of_records (curve_rows 0.5 "Both" 100 a b rho m_param sigma lo hi),
          5%nat).
Proof.
  intros Hsl.
  destruct (scenario_fit table Hsl) as (base_a & lo & hi & Hcal & Hlo & Hhi).
  exists base_a, lo, hi; do 5 eexists; split; [reflexivity|]; split; [exact Hcal|].
  apply generate_singleton; trivial.
  rewrite Hsl; simpl; lia.
Qed.

(** C4 on the scenario. *)
Lemma fitted_maturity_emits_100_rows_witness :
  exists out gout,
    generate_svi_calibrated_data nat uniform_mid minimize_stay ([] ++ 0.5 :: [])
      scenario_table 100 0 1 "Both" 0%nat = Ok (out, gout) /\
    exists lo hi grid block,
      least lo (map LogMoneyness (maturity_slice scenario_table 0.5)) /\
      greatest hi (map LogMoneyness (maturity_slice scenario_table 0.5)) /\
      maturity_step nat uniform_mid minimize_stay scenario_table 100 0 1 "Both"
        0.5 [] 0%nat = Ok ([] ++ block, 5%nat) /\
      length block = 100%nat /\
      Forall (fun row => num_cell "TimeToExpiry" row = Some 0.5) block /\
      map (num_cell "LogMoneyness") block = map Some grid /\
      length grid = 100%nat /\
      nth_error grid 0 = Some (lo - 0.1) /\
      nth_error grid 99 = Some (hi + 0.1) /\
      (forall i x y, nth_error grid i = Some x -> nth_error grid (S i) = Some y ->
         y - x = (hi + 0.1 - (lo - 0.1)) / 99 /\ x < y) /\
      (~ In 0.5 [] -> ~ In 0.5 [] -> rows_of_maturity 0.5 (data out) = block).
Proof.
  destruct (scenario_generate scenario_table scenario_slice)
    as (base_a & lo & hi & a & b & rho & m & sigma & Hp & Hcal & Hgen).
  eexists; eexists; split; [exact Hgen|].
  apply (fitted_maturity_emits_100_rows nat uniform_mid minimize_stay scenario_table
           100 0 1 "Both" [] [] 0.5 [] 0%nat 0%nat 5%nat 5%nat (mid_start base_a) _).
  - reflexivity.
  - rewrite scenario_slice; simpl; lia.
  - exact Hcal.
  - exact Hgen.
Defined.

Lemma isclose_half_one : np.isclose 0.5 1 = false.
Proof.
  unfold np.isclose; apply Rleb_false.
  rewrite (Rabs_left (0.5 - 1)), (Rabs_right 1) by lra; lra.
Qed.

Lemma isclose_one_half : np.isclose 1 0.5 = false.
Proof.
  unfold np.isclose; apply Rleb_false.
  rewrite (Rabs_right (1 - 0.5)), (Rabs_right 0.5) by lra; lra.
Qed.

Lemma mixed_slice_half : maturity_slice mixed_table 0.5 = scenario_quotes.
Proof.
  unfold maturity_slice, mixed_table, scenario_quotes.
  cbn [quotes filter TimeToExpiry app].
  rewrite !isclose_refl, !isclose_one_half; reflexivity.
Qed.

Lemma mixed_slice_one :
  maturity_slice mixed_table 1 = [ mkQuote 1 0 0.30 0; mkQuote 1 0.1 0.31 0 ].
Proof.
  unfold maturity_slice, mixed_table, scenario_quotes.
  cbn [quotes filter TimeToExpiry app].
  rewrite !isclose_refl, !isclose_half_one; reflexivity.
Qed.

Lemma columns_of_surface_rows (rows : list pyrecord) :
  rows <> [] ->
  Forall (fun r => map fst r = surface_columns) rows ->
  columns (DataFrame_of_records rows) = surface_columns.
Proof.
  intros Hne Hall; unfold DataFrame_of_records; cbn [columns].
  destruct Hall as [|r rows Hr Hall]; [contradiction|].
  cbn [fold_left]; rewrite Hr.
  change (fold_left add_key surface_columns []) with surface_columns.
  clear Hne Hr.
  induction Hall as [|r' rows' Hr' _ IH]; [reflexivity|].
  cbn [fold_left]; rewrite Hr'.
  change (fold_left add_key surface_columns surface_columns) with surface_columns.
  exact IH.
Qed.

Section SurfaceClaims.

Variable rng : Type.
Variable uniform : R -> R -> rng -> R * rng.
Variable minimize :
  (list R -> result R) -> list R -> list (xreal * xreal) -> result OptimizeResult.

Variable imp_vol_data : QuoteTable.
Variables spot_price reg_weight : R.
Variable multi_start_count : nat.
Variable option_data_type : string.

(** Every row of the returned table is [emitted]. *)
Lemma generate_rows_emitted (ms : list R) (g gout : rng) (out : DataFrame) :
  generate_svi_calibrated_data rng uniform minimize ms imp_vol_data spot_price
    reg_weight multi_start_count option_data_type g = Ok (out, gout) ->
  Forall (emitted rng uniform minimize imp_vol_data spot_price reg_weight
            multi_start_count option_data_type ms) (data out).
Proof.
  intros H; apply generate_inv, maturity_loop_rows in H as (new & -> & Hnew).
  exact Hnew.
Qed.

(** The non-empty path: the table carries the six columns of its rows. *)
Lemma nonempty_surface_columns (ms : list R) (g gout : rng) (out : DataFrame) :
  generate_svi_calibrated_data rng uniform minimize ms imp_vol_data spot_price
    reg_weight multi_start_count option_data_type g = Ok (out, gout) ->
  data out <> [] -> columns out = surface_columns.
Proof.
  intros H Hne; pose proof (generate_rows_emitted ms g gout out H) as Hem.
  unfold generate_svi_calibrated_data in H.
  destruct (maturity_loop rng uniform minimize ms imp_vol_data spot_price reg_weight
              multi_start_count option_data_type [] g) as [[rows g1]|e];
    cbn [rbind] in H; [|discriminate].
  destruct rows as [|r rows]; injection H as <- <-; [now destruct Hne|].
  apply columns_of_surface_rows; [discriminate|].
  eapply Forall_impl; [|exact Hem].
  intros row (T & g1' & g2 & a & b & rho & m & sigma & lo & hi & x & Hrow).
  cbv zeta in Hrow; destruct Hrow as (_ & _ & _ & _ & _ & _ & ->); reflexivity.
Qed.

(** C2, what the code does: when no maturity yields a fit the returned table
    is empty and its columns are the five labels written in the source;
    ["LogMoneyness"], which every non-empty output carries, is not among
    them, so the column set differs from the six-column schema. *)
Theorem empty_surface_lacks_LogMoneyness (ms : list R) (g gout : rng) (out : DataFrame) :
  generate_svi_calibrated_data rng uniform minimize ms imp_vol_data spot_price
    reg_weight multi_start_count option_data_type g = Ok (out, gout) ->
  data out = [] ->
  columns out =
    [ "TimeToExpiry"; "StrikePrice"; "Moneyness"; "ImpliedVolatility"; "OptionType" ]%string /\
  ~ In "LogMoneyness"%string (columns out) /\
  columns out <> surface_columns.
Proof.
  intros H Hempty; unfold generate_svi_calibrated_data in H.
  destruct (maturity_loop rng uniform minimize ms imp_vol_data spot_price reg_weight
              multi_start_count option_data_type [] g) as [[rows g1]|e];
    cbn [rbind] in H; [|discriminate].
  destruct rows as [|r rows]; injection H as <- <-; [|discriminate].
  split; [reflexivity|]; split.
  - cbn; intros [H|[H|[H|[H|[H|[]]]]]]; discriminate.
  - discriminate.
Qed.

(** C8: every row of the returned table comes from a maturity of the input
    list whose calibration was run on the slice's implied volatilities
    multiplied by 100, and the row's [ImpliedVolatility] is the value of
    [svi_model] at the row's [LogMoneyness], with the parameters that
    calibration returned, divided by 100.  So wherever the fitted model
    meets a scaled market value [iv * 100], the row carries [iv]. *)
Theorem surface_volatility_round_trip (ms : list R) (g gout : rng) (out : DataFrame) :
  generate_svi_calibrated_data rng uniform minimize ms imp_vol_data spot_price
    reg_weight multi_start_count option_data_type g = Ok (out, gout) ->
  Forall
    (fun row =>
       exists T g1 g2 a b rho m_param sigma x mv,
         In T ms /\
         calibrate_svi rng uniform minimize
           (map LogMoneyness (maturity_slice imp_vol_data T))
           (map (fun q => ImpliedVolatility q * 100) (maturity_slice imp_vol_data T))
           reg_weight multi_start_count g1 = Ok (Some [a; b; rho; m_param; sigma], g2) /\
         num_cell "TimeToExpiry" row = Some T /\
         num_cell "LogMoneyness" row = Some x /\
         svi_model [x] a b rho m_param sigma = Ok [mv] /\
         num_cell "ImpliedVolatility" row = Some (mv / 100) /\
         forall iv, mv = iv * 100 -> num_cell "ImpliedVolatility" row = Some iv)
    (data out).
Proof.
  intros H; apply generate_rows_emitted in H.
  eapply Forall_impl; [|exact H].
  intros row (T & g1 & g2 & a & b & rho & m & sigma & lo & hi & x & Hrow).
  cbv zeta in Hrow; destruct Hrow as (HT & _ & Hcal & _ & _ & _ & ->).
  exists T, g1, g2, a, b, rho, m, sigma, x, (svi_point a b rho m sigma x).
  split; [exact HT|]; split; [exact Hcal|].
  split; [reflexivity|]; split; [reflexivity|].
  split; [now rewrite svi_model_elementwise|].
  split; [reflexivity|].
  intros iv Hiv; cbn; rewrite Hiv; do 2 f_equal; lra.
Qed.

End SurfaceClaims.

Lemma rows_of_maturity_none (T : R) (rows : list pyrecord) :
  (forall row, In row rows -> num_cell "TimeToExpiry" row <> Some T) ->
  rows_of_maturity T rows = [].
Proof.
  unfold rows_of_maturity; induction rows as [|row rows IH]; intros Hno;
    [reflexivity|].
  cbn [filter]; unfold has_maturity at 1.
  pose proof (Hno row (or_introl eq_refl)) as Hrow.
  destruct (num_cell "TimeToExpiry" row) as [t|].
  - destruct (Req_dec_T t T) as [->|_]; [now destruct Hrow|].
    apply IH; intros r Hr; apply Hno; now right.
  - apply IH; intros r Hr; apply Hno; now right.
Qed.

Section SkipClaims.

Variable rng : Type.
Variable uniform : R -> R -> rng -> R * rng.
Variable minimize :
  (list R -> result R) -> list R -> list (xreal * xreal) -> result OptimizeResult.

Variable imp_vol_data : QuoteTable.
Variables spot_price reg_weight : R.
Variable multi_start_count : nat.
Variable option_data_type : string.

Lemma generate_drop_skipped (ms1 ms2 : list R) (T : R) (g : rng) :
  (length (maturity_slice imp_vol_data T) < 5)%nat ->
  generate_svi_calibrated_data rng uniform minimize (ms1 ++ T :: ms2) imp_vol_data
    spot_price reg_weight multi_start_count option_data_type g =
  generate_svi_calibrated_data rng uniform minimize (ms1 ++ ms2) imp_vol_data
    spot_price reg_weight multi_start_count option_data_type g.
Proof.
  intros Hlen; unfold generate_svi_calibrated_data.
  rewrite !maturity_loop_app.
  destruct (maturity_loop rng uniform minimize ms1 imp_vol_data spot_price reg_weight
              multi_start_count option_data_type [] g) as [[rows g1]|e];
    cbn [rbind fst snd maturity_loop]; [|reflexivity].
  now rewrite maturity_step_skip by exact Hlen.
Qed.

(** C6: for a maturity [T] with fewer than five close quotes, the loop
    iteration for [T] returns without raising and leaves the accumulated
    rows and the generator untouched; the call gives the same result as on
    the list of maturities with [T] removed, so the other maturities are
    processed as if [T] were not there; and no row of a returned table has
    [TimeToExpiry = T]. *)
Theorem thin_maturity_is_skipped (ms1 ms2 : list R) (T : R) (g : rng) :
  (length (maturity_slice imp_vol_data T) < 5)%nat ->
  (forall acc g0,
     maturity_step rng uniform minimize imp_vol_data spot_price reg_weight
       multi_start_count option_data_type T acc g0 = Ok (acc, g0)) /\
  generate_svi_calibrated_data rng uniform minimize (ms1 ++ T :: ms2) imp_vol_data
    spot_price reg_weight multi_start_count option_data_type g =
  generate_svi_calibrated_data rng uniform minimize (ms1 ++ ms2) imp_vol_data
    spot_price reg_weight multi_start_count option_data_type g /\
  (forall out gout,
     generate_svi_calibrated_data rng uniform minimize (ms1 ++ T :: ms2) imp_vol_data
       spot_price reg_weight multi_start_count option_data_type g = Ok (out, gout) ->
     rows_of_maturity T (data out) = [] /\
     forall row, In row (data out) -> num_cell "TimeToExpiry" row <> Some T).
Proof.
  intros Hlen.
  split; [intros acc g0; now apply maturity_step_skip|].
  split; [now apply generate_drop_skipped|].
  intros out gout Hgen.
  pose proof (generate_rows_emitted _ _ _ _ _ _ _ _ _ _ _ _ Hgen) as Hem.
  assert (Hno : forall row, In row (data out) -> num_cell "TimeToExpiry" row <> Some T).
  { intros row Hrow HT.
    rewrite Forall_forall in Hem; specialize (Hem row Hrow).
    apply emitted_maturity in Hem as (T' & _ & Hlen' & Hcell).
    rewrite Hcell in HT; injection HT as ->; lia. }
  split; [|exact Hno].
  apply rows_of_maturity_none, Hno.
Qed.

End SkipClaims.

Lemma mixed_generate :
  exists out,
    generate_svi_calibrated_data nat uniform_mid minimize_stay ([0.5] ++ 1 :: [])
      mixed_table 100 0 1 "Both" 0%nat = Ok (out, 5%nat) /\
    length (data out) = 100%nat.
Proof.
  destruct (scenario_generate mixed_table mixed_slice_half)
    as (base_a & lo & hi & a & b & rho & m & sigma & _ & _ & Hgen).
  eexists; split.
  - rewrite generate_drop_skipped by (rewrite mixed_slice_one; simpl; lia).
    exact Hgen.
  - cbn [data DataFrame_of_records]; apply curve_rows_length.
Qed.

(** C6 on the scenario with two extra quotes at maturity [1]: the 100 rows of
    maturity [0.5] are produced and none carries maturity [1]. *)
Lemma thin_maturity_is_skipped_witness :
  (length (maturity_slice mixed_table 1) < 5)%nat /\
  (exists out,
     generate_svi_calibrated_data nat uniform_mid minimize_stay ([0.5] ++ 1 :: [])
       mixed_table 100 0 1 "Both" 0%nat = Ok (out, 5%nat) /\
     length (data out) = 100%nat) /\
  (forall acc g0,
     maturity_step nat uniform_mid minimize_stay mixed_table 100 0 1 "Both" 1 acc g0
       = Ok (acc, g0)) /\
  generate_svi_calibrated_data nat uniform_mid minimize_stay ([0.5] ++ 1 :: [])
    mixed_table 100 0 1 "Both" 0%nat =
  generate_svi_calibrated_data nat uniform_mid minimize_stay ([0.5] ++ [])
    mixed_table 100 0 1 "Both" 0%nat /\
  (forall out gout,
     generate_svi_calibrated_data nat uniform_mid minimize_stay ([0.5] ++ 1 :: [])
       mixed_table 100 0 1 "Both" 0%nat = Ok (out, gout) ->
     rows_of_maturity 1 (data out) = [] /\
     forall row, In row (data out) -> num_cell "TimeToExpiry" row <> Some 1).
Proof.
  assert (Hlen : (length (maturity_slice mixed_table 1) < 5)%nat)
    by (rewrite mixed_slice_one; simpl; lia).
  split; [exact Hlen|].
  split; [exact mixed_generate|].
  exact (thin_maturity_is_skipped nat uniform_mid minimize_stay mixed_table
           100 0 1 "Both" [0.5] [] 1 0%nat Hlen).
Defined.

Lemma mixed_generate_thin :
  generate_svi_calibrated_data nat uniform_mid minimize_stay [1] mixed_table
    100 0 1 "Both" 0%nat = Ok (DataFrame_of_columns empty_columns, 0%nat).
Proof.
  unfold generate_svi_calibrated_data; cbn [maturity_loop].
  rewrite maturity_step_skip by (rewrite mixed_slice_one; simpl; lia).
  reflexivity.
Qed.

(** C2 on a table whose only requested maturity has two quotes. *)
Lemma empty_surface_lacks_LogMoneyness_witness :
  generate_svi_calibrated_data nat uniform_mid minimize_stay [1] mixed_table
    100 0 1 "Both" 0%nat = Ok (DataFrame_of_columns empty_columns, 0%nat) /\
  columns (DataFrame_of_columns empty_columns) =
    [ "TimeToExpiry"; "StrikePrice"; "Moneyness"; "ImpliedVolatility"; "OptionType" ]%string /\
  ~ In "LogMoneyness"%string (columns (DataFrame_of_columns empty_columns)) /\
  columns (DataFrame_of_columns empty_columns) <> surface_columns.
Proof.
  split; [exact mixed_generate_thin|].
  apply (empty_surface_lacks_LogMoneyness nat uniform_mid minimize_stay mixed_table
           100 0 1 "Both" [1] 0%nat 0%nat (DataFrame_of_columns empty_columns)).
  - exact mixed_generate_thin.
  - reflexivity.
Defined.

(** C8 on the scenario: all 100 rows. *)
Lemma surface_volatility_round_trip_witness :
  exists out gout,
    generate_svi_calibrated_data nat uniform_mid minimize_stay [0.5] scenario_table
      100 0 1 "Both" 0%nat = Ok (out, gout) /\
    length (data out) = 100%nat /\
    Forall
      (fun row =>
         exists T g1 g2 a b rho m_param sigma x mv,
           In T [0.5] /\
           calibrate_svi nat uniform_mid minimize_stay
             (map LogMoneyness (maturity_slice scenario_table T))
             (map (fun q => ImpliedVolatility q * 100) (maturity_slice scenario_table T))
             0 1 g1 = Ok (Some [a; b; rho; m_param; sigma], g2) /\
           num_cell "TimeToExpiry" row = Some T /\
           num_cell "LogMoneyness" row = Some x /\
           svi_model [x] a b rho m_param sigma = Ok [mv] /\
           num_cell "ImpliedVolatility" row = Some (mv / 100) /\
           forall iv, mv = iv * 100 -> num_cell "ImpliedVolatility" row = Some iv)
      (data out).
Proof.
  destruct (scenario_generate scenario_table scenario_slice)
    as (base_a & lo & hi & a & b & rho & m & sigma & _ & _ & Hgen).
  eexists; eexists; split; [exact Hgen|].
  split; [cbn [data DataFrame_of_records]; apply curve_rows_length|].
  exact (surface_volatility_round_trip nat uniform_mid minimize_stay scenario_table
           100 0 1 "Both" [0.5] 0%nat 5%nat _ Hgen).
Defined.

(** ** Totality of the calibration *)

Lemma slice_v_nonempty (sl : list Quote) : (5 <= length sl)%nat -> slice_v sl <> [].
Proof.
  intros H Hnil; apply (f_equal (@length R)) in Hnil.
  unfold slice_v, np.mul_scalar in Hnil; rewrite !length_map in Hnil.
  simpl in Hnil; lia.
Qed.

(** C10: with an empty [v] the call raises [ValueError], whatever the start
    count, the random generator and the optimizer are, so before any attempt
    is made.  With a non-empty [v], and an optimizer that returns points of
    the shape of its starting point when it returns at all, every call
    returns, and it returns [None] or a list of five numbers, whatever the
    attempts raise.  A slice that passes the five-quote gate of the surface
    generator gives a non-empty [v], so the calibration the generator then
    runs returns. *)
Theorem calibrate_svi_total_on_nonempty
  (rng : Type) (uniform : R -> R -> rng -> R * rng)
  (minimize : (list R -> result R) -> list R -> list (xreal * xreal)
              -> result OptimizeResult)
  (k v : list R) (lambda_reg : R) (n : nat) (g : rng)
  (table : QuoteTable) (T : R) :
  (v = [] ->
     calibrate_svi rng uniform minimize k v lambda_reg n g = Raise ValueError) /\
  (keeps_shape minimize -> v <> [] ->
     exists res g',
       calibrate_svi rng uniform minimize k v lambda_reg n g = Ok (res, g') /\
       (res = None \/ exists p, res = Some p /\ length p = 5%nat)) /\
  ((5 <= length (maturity_slice table T))%nat ->
     slice_v (maturity_slice table T) <> [] /\
     exists res g',
       calibrate_svi rng uniform minimize (slice_k (maturity_slice table T))
         (slice_v (maturity_slice table T)) lambda_reg n g = Ok (res, g')).
Proof.
  split; [intros ->; reflexivity|].
  split; [apply calibrate_svi_returns|].
  intros Hlen; pose proof (slice_v_nonempty _ Hlen) as Hne.
  split; [exact Hne|].
  destruct (calibrate_svi_selects rng uniform minimize
              (slice_k (maturity_slice table T)) (slice_v (maturity_slice table T))
              lambda_reg n g Hne) as (base_a & st & g' & _ & _ & Hc & _).
  now exists (best_params st), g'.
Qed.

Lemma calibrate_svi_total_on_nonempty_witness :
  calibrate_svi nat uniform_mid minimize_stay [0; 1] [] 0 5 0%nat = Raise ValueError /\
  (exists res g',
     calibrate_svi nat uniform_mid minimize_stay [0; 1] [20; 21] 0 5 0%nat
       = Ok (res, g') /\
     (res = None \/ exists p, res = Some p /\ length p = 5%nat)) /\
  (slice_v (maturity_slice scenario_table 0.5) <> [] /\
   exists res g',
     calibrate_svi nat uniform_mid minimize_stay
       (slice_k (maturity_slice scenario_table 0.5))
       (slice_v (maturity_slice scenario_table 0.5)) 0 5 0%nat = Ok (res, g')).
Proof.
  split.
  - apply (proj1 (calibrate_svi_total_on_nonempty nat uniform_mid minimize_stay
                    [0; 1] [] 0 5 0%nat scenario_table 0.5)).
    reflexivity.
  - split.
    + apply (proj1 (proj2 (calibrate_svi_total_on_nonempty nat uniform_mid minimize_stay
                             [0; 1] [20; 21] 0 5 0%nat scenario_table 0.5))).
      * exact minimize_stay_keeps_shape.
      * discriminate.
    + apply (proj2 (proj2 (calibrate_svi_total_on_nonempty nat uniform_mid minimize_stay
                             [0; 1] [20; 21] 0 5 0%nat scenario_table 0.5))).
      rewrite scenario_slice; simpl; lia.
Defined.

(** ** The outlier filter *)

Lemma select_rows_map (f : Quote -> bool) (qs : list Quote) :
  select_rows qs (map f qs) = filter f qs.
Proof.
  induction qs as [|q qs IH]; simpl; [reflexivity|].
  rewrite IH; reflexivity.
Qed.

Lemma mask_and_map {A} (f g : A -> bool) (xs : list A) :
  mask_and (map f xs) (map g xs) = map (fun x => f x && g x) xs.
Proof. induction xs as [|x xs IH]; simpl; [reflexivity | now rewrite IH]. Qed.

Lemma nth_error_new_frame (h : frames) (t : QuoteTable) :
  nth_error (h ++ [t]) (length h) = Some t.
Proof. now rewrite nth_error_app2, Nat.sub_diag by lia. Qed.

Lemma nth_error_kept (h : frames) (t : QuoteTable) (r : nat) :
  (r < length h)%nat -> nth_error (snd (new_frame h t)) r = nth_error h r.
Proof. intros H; simpl; now rewrite nth_error_app1. Qed.

Lemma getitem_mask_ok (h : frames) (ref : nat) (t : QuoteTable) (f : Quote -> bool) :
  nth_error h ref = Some t ->
  getitem_mask h ref (map f (quotes t)) =
    Ok (new_frame h {| has_volume := has_volume t; quotes := filter f (quotes t) |}).
Proof.
  intros H; unfold getitem_mask, deref; rewrite H; cbn [rbind].
  now rewrite select_rows_map.
Qed.

Lemma quantile_nonempty (xs : list R) (num den : nat) :
  xs <> [] -> exists q, quantile xs num den = Some q.
Proof. destruct xs; [contradiction|]; intros _; eexists; reflexivity. Qed.

Lemma in_volume_filtered (t : QuoteTable) (q : Quote) :
  In q (volume_filtered t) <->
  In q (quotes t) /\ (has_volume t = true -> volume q > 10).
Proof.
  unfold volume_filtered; destruct (has_volume t).
  - rewrite filter_In, Rgtb_true; tauto.
  - split; [intros H; split; [exact H | discriminate] | tauto].
Qed.

(** The fences computed from a column of volatilities. *)
Lemma iqr_step_ok (h : frames) (ref : nat) (t : QuoteTable) :
  nth_error h ref = Some t ->
  let iv := map ImpliedVolatility (quotes t) in
  let IQR := nan_map2 Rminus (quantile iv 3 4) (quantile iv 1 4) in
  let lower := nan_map2 Rminus (quantile iv 1 4) (nan_map2 Rmult (Some 2) IQR) in
  let upper := nan_map2 Rplus (quantile iv 3 4) (nan_map2 Rmult (Some 2) IQR) in
  iqr_step h ref =
    Ok (new_frame h
          {| has_volume := has_volume t;
             quotes := filter (fun q => ge_nan (ImpliedVolatility q) lower
                                        && le_nan (ImpliedVolatility q) upper)
                         (quotes t) |}).
Proof.
  intros Href iv IQR lower upper.
  unfold iqr_step, deref; rewrite Href; cbn [rbind]; cbv zeta.
  fold iv; fold IQR; fold lower; fold upper.
  unfold iv at 1 2; rewrite !map_map, mask_and_map.
  apply (getitem_mask_ok h ref t _ Href).
Qed.

(** The table the filter builds, written with plain filters. *)
Lemma filter_outliers_run (h : frames) (ref : nat) (t : QuoteTable) :
  nth_error h ref = Some t ->
  exists ref' h',
    filter_outliers h ref = Ok (ref', h') /\
    (forall r, (r < length h)%nat -> nth_error h' r = nth_error h r) /\
    let kept := volume_filtered t in
    let iv := map ImpliedVolatility kept in
    let IQR := nan_map2 Rminus (quantile iv 3 4) (quantile iv 1 4) in
    let lower := nan_map2 Rminus (quantile iv 1 4) (nan_map2 Rmult (Some 2) IQR) in
    let upper := nan_map2 Rplus (quantile iv 3 4) (nan_map2 Rmult (Some 2) IQR) in
    nth_error h' ref' =
      Some {| has_volume := has_volume t;
              quotes := filter (fun q => ge_nan (ImpliedVolatility q) lower
                                         && le_nan (ImpliedVolatility q) upper) kept |}.
Proof.
  intros Href.
  assert (Hlt : (ref < length h)%nat) by (apply nth_error_Some; congruence).
  unfold filter_outliers, volume_step, deref; rewrite Href; cbn [rbind].
  unfold volume_filtered.
  destruct (has_volume t) eqn:Hvol.
  - rewrite (getitem_mask_ok h ref t _ Href); cbn [rbind new_frame fst snd].
    set (t1 := {| has_volume := has_volume t;
                  quotes := filter (fun q => Rgtb (volume q) 10) (quotes t) |}).
    pose proof (nth_error_new_frame h t1) as H1.
    rewrite (iqr_step_ok _ _ _ H1).
    eexists; eexists; split; [reflexivity|]; split.
    + intros r Hr; cbn [new_frame snd].
      rewrite !nth_error_app1; trivial; rewrite ?length_app; lia.
    + cbv zeta; cbn [new_frame fst snd]; rewrite nth_error_new_frame.
      subst t1; cbn [has_volume quotes]; rewrite Hvol; reflexivity.
  - cbn [rbind fst snd]; rewrite (iqr_step_ok _ _ _ Href).
    eexists; eexists; split; [reflexivity|]; split.
    + intros r Hr; now apply nth_error_kept.
    + cbv zeta; cbn [new_frame fst snd]; rewrite nth_error_new_frame, Hvol.
      reflexivity.
Qed.

Lemma Rgeb_Rleb (x y : R) : Rgeb x y = Rleb y x.
Proof. unfold Rgeb, Rleb; destruct (Rge_dec x y), (Rle_dec y x); trivial; lra. Qed.

(** C9: the call returns a reference to a table whose rows are exactly the
    rows of the input that pass the volume step (volume above 10 when the
    column is present, every row otherwise) and whose implied volatility
    lies in [[Q1 - 2*IQR, Q3 + 2*IQR]], both ends included, in their input
    order; [Q1] and [Q3] are the quartiles of the implied volatilities of the
    volume-filtered rows.  When no row passes the volume step the result is
    empty.  The table behind the caller's reference, like every table that
    already existed, is unchanged. *)
Theorem filter_outliers_keeps_within_fences (h : frames) (ref : nat) (t : QuoteTable) :
  nth_error h ref = Some t ->
  exists ref' h' t',
    filter_outliers h ref = Ok (ref', h') /\
    nth_error h' ref = Some t /\
    (forall r, (r < length h)%nat -> nth_error h' r = nth_error h r) /\
    nth_error h' ref' = Some t' /\
    has_volume t' = has_volume t /\
    (forall q, In q (volume_filtered t) <->
               In q (quotes t) /\ (has_volume t = true -> volume q > 10)) /\
    (volume_filtered t = [] -> quotes t' = []) /\
    (volume_filtered t <> [] ->
     exists Q1 Q3,
       quantile (map ImpliedVolatility (volume_filtered t)) 1 4 = Some Q1 /\
       quantile (map ImpliedVolatility (volume_filtered t)) 3 4 = Some Q3 /\
       quotes t' =
         filter (fun q => Rleb (Q1 - 2 * (Q3 - Q1)) (ImpliedVolatility q)
                          && Rleb (ImpliedVolatility q) (Q3 + 2 * (Q3 - Q1)))
                (volume_filtered t) /\
       forall q, In q (quotes t') <->
                 In q (volume_filtered t) /\ within_fences Q1 Q3 (ImpliedVolatility q)).
Proof.
  intros Href.
  assert (Hlt : (ref < length h)%nat) by (apply nth_error_Some; congruence).
  destruct (filter_outliers_run h ref t Href) as (ref' & h' & Hrun & Hkeep & Hnew).
  cbv zeta in Hnew.
  eexists ref', h', _; split; [exact Hrun|].
  split; [now rewrite Hkeep|].
  split; [exact Hkeep|].
  split; [exact Hnew|].
  split; [reflexivity|].
  split; [apply in_volume_filtered|].
  cbn [quotes]; split.
  - intros ->; reflexivity.
  - intros Hne.
    assert (Hiv : map ImpliedVolatility (volume_filtered t) <> [])
      by (destruct (volume_filtered t); [contradiction | discriminate]).
    destruct (quantile_nonempty _ 1 4 Hiv) as (Q1 & HQ1).
    destruct (quantile_nonempty _ 3 4 Hiv) as (Q3 & HQ3).
    exists Q1, Q3; rewrite HQ1, HQ3; cbn [nan_map2 ge_nan le_nan].
    split; [reflexivity|]; split; [reflexivity|].
    assert (Hfilter :
      filter (fun q => Rgeb (ImpliedVolatility q) (Q1 - 2 * (Q3 - Q1))
                       && Rleb (ImpliedVolatility q) (Q3 + 2 * (Q3 - Q1)))
             (volume_filtered t) =
      filter (fun q => Rleb (Q1 - 2 * (Q3 - Q1)) (ImpliedVolatility q)
                       && Rleb (ImpliedVolatility q) (Q3 + 2 * (Q3 - Q1)))
             (volume_filtered t))
      by (apply filter_ext; intros q; now rewrite Rgeb_Rleb).
    rewrite Hfilter; split; [reflexivity|].
    intros q; rewrite filter_In, andb_true_iff, !Rleb_true.
    unfold within_fences; tauto.
Qed.

Lemma filter_outliers_keeps_within_fences_witness :
  nth_error [outlier_table] 0 = Some outlier_table /\
  exists ref' h' t',
    filter_outliers [outlier_table] 0 = Ok (ref', h') /\
    nth_error h' 0 = Some outlier_table /\
    (forall r, (r < length [outlier_table])%nat ->
               nth_error h' r = nth_error [outlier_table] r) /\
    nth_error h' ref' = Some t' /\
    has_volume t' = has_volume outlier_table /\
    (forall q, In q (volume_filtered outlier_table) <->
               In q (quotes outlier_table) /\
               (has_volume outlier_table = true -> volume q > 10)) /\
    (volume_filtered outlier_table = [] -> quotes t' = []) /\
    (volume_filtered outlier_table <> [] ->
     exists Q1 Q3,
       quantile (map ImpliedVolatility (volume_filtered outlier_table)) 1 4 = Some Q1 /\
       quantile (map ImpliedVolatility (volume_filtered outlier_table)) 3 4 = Some Q3 /\
       quotes t' =
         filter (fun q => Rleb (Q1 - 2 * (Q3 - Q1)) (ImpliedVolatility q)
                          && Rleb (ImpliedVolatility q) (Q3 + 2 * (Q3 - Q1)))
                (volume_filtered outlier_table) /\
       forall q, In q (quotes t') <->
                 In q (volume_filtered outlier_table) /\
                 within_fences Q1 Q3 (ImpliedVolatility q)).
Proof.
  split; [reflexivity|].
  apply (filter_outliers_keeps_within_fences [outlier_table] 0 outlier_table).
  reflexivity.
Defined.

(** ** The filter on the two example tables *)

Ltac decide_cmp :=
  repeat
    (cbn [sort_values fold_right insert_sorted map filter ImpliedVolatility volume
          quotes has_volume ge_nan le_nan nan_map2 andb];
     match goal with
     | |- context [Rleb ?a ?b] =>
         first [ rewrite (proj2 (Rleb_true a b)) by lra
               | rewrite (proj2 (Rleb_false a b)) by lra ]
     | |- context [Rgeb ?a ?b] =>
         first [ rewrite (proj2 (Rgeb_true a b)) by lra
               | rewrite (proj2 (Rgeb_false a b)) by lra ]
     | |- context [Rgtb ?a ?b] =>
         first [ rewrite (proj2 (Rgtb_true a b)) by lra
               | rewrite (proj2 (Rgtb_false a b)) by lra ]
     end).

Lemma outlier_sorted :
  sort_values [0.1; 0.12; 0.11; 0.13; 0.9] = [0.1; 0.11; 0.12; 0.13; 0.9].
Proof. decide_cmp; reflexivity. Qed.

Lemma outlier_quartiles :
  quantile [0.1; 0.12; 0.11; 0.13; 0.9] 1 4 = Some 0.11 /\
  quantile [0.1; 0.12; 0.11; 0.13; 0.9] 3 4 = Some 0.13.
Proof.
  unfold quantile; rewrite outlier_sorted; split; f_equal; simpl; lra.
Qed.

(** Without a volume column the extreme volatility [0.9] is dropped and the
    four other rows are kept; the input table stays where it was. *)
Example filter_outliers_drops_extreme :
  filter_outliers [outlier_table] 0 =
    Ok (1%nat,
        [ outlier_table;
          {| has_volume := false;
             quotes := [ mkQuote 0.5 0 0.1 0; mkQuote 0.5 0 0.12 0;
                         mkQuote 0.5 0 0.11 0; mkQuote 0.5 0 0.13 0 ] |} ]).
Proof.
  unfold filter_outliers, volume_step; cbn [deref nth_error rbind outlier_table
    has_volume fst snd].
  rewrite (iqr_step_ok [outlier_table] 0 outlier_table eq_refl).
  cbn [outlier_table outlier_quotes quotes map ImpliedVolatility has_volume].
  destruct outlier_quartiles as [-> ->].
  unfold outlier_quotes; decide_cmp; reflexivity.
Qed.

Lemma volume_sorted : sort_values [0.1; 0.11; 0.13; 0.9] = [0.1; 0.11; 0.13; 0.9].
Proof. decide_cmp; reflexivity. Qed.

Lemma volume_quartiles :
  quantile [0.1; 0.11; 0.13; 0.9] 1 4 = Some (0.1 + (0.11 - 0.1) * (3 / 4)) /\
  quantile [0.1; 0.11; 0.13; 0.9] 3 4 = Some (0.13 + (0.9 - 0.13) * (1 / 4)).
Proof.
  unfold quantile; rewrite volume_sorted; split; f_equal; simpl; lra.
Qed.

(** With a volume column the row trading 5 lots is dropped whatever its
    volatility; the quartiles are then taken over the four rows left, and
    their fences drop the extreme volatility [0.9]. *)
Example filter_outliers_drops_thin_volume :
  filter_outliers [volume_table] 0 =
    Ok (2%nat,
        [ volume_table;
          {| has_volume := true;
             quotes := [ mkQuote 0.5 0 0.1 50; mkQuote 0.5 0 0.11 50;
                         mkQuote 0.5 0 0.13 50; mkQuote 0.5 0 0.9 50 ] |};
          {| has_volume := true;
             quotes := [ mkQuote 0.5 0 0.1 50; mkQuote 0.5 0 0.11 50;
                         mkQuote 0.5 0 0.13 50 ] |} ]).
Proof.
  unfold filter_outliers, volume_step; cbn [deref nth_error rbind volume_table
    has_volume].
  rewrite (getitem_mask_ok [volume_table] 0 volume_table _ eq_refl).
  cbn [rbind new_frame fst snd length app volume_table quotes has_volume].
  decide_cmp.
  match goal with
  | |- iqr_step ?h 1 = _ =>
      rewrite (iqr_step_ok h 1
                 {| has_volume := true;
                    quotes := [ mkQuote 0.5 0 0.1 50; mkQuote 0.5 0 0.11 50;
                                mkQuote 0.5 0 0.13 50; mkQuote 0.5 0 0.9 50 ] |}
                 eq_refl)
  end.
  cbn [quotes map ImpliedVolatility has_volume].
  destruct volume_quartiles as [-> ->].
  decide_cmp; reflexivity.
Qed.

(** ** The option-type label *)

Example option_label_calls : option_label "Calls Only" = "Calls"%string.
Proof. reflexivity. Qed.

Example option_label_puts : option_label "Puts Only" = "Puts"%string.
Proof. reflexivity. Qed.

Example option_label_both : option_label "Both" = "Both"%string.
Proof. reflexivity. Qed.

Example option_label_long : option_label "Both Calls & Puts" = "Both"%string.
Proof. reflexivity. Qed.

Example str_replace_all : str_replace "a-b-c" "-" "+" = "a+b+c"%string.
Proof. reflexivity. Qed.

(** ** Data no optimizer fits below the penalty *)

Lemma contradictory_quotes_any (params : list R) (f : R) :
  svi_objective params [0; 0] [0; 200000] 0 = Ok f -> penalty <= f.
Proof.
  destruct params as [|a [|b [|rho [|m_param [|sigma [|]]]]]]; try discriminate.
  destruct (Rltb b 0 || Rleb sigma 0 || Rgeb (Rabs rho) 1) eqn:Hgate.
  - apply invalid_gate in Hgate.
    rewrite svi_objective_invalid by exact Hgate.
    intros H; injection H as <-; lra.
  - apply valid_gate in Hgate as (Hb & Hs & Hr).
    destruct (contradictory_quotes_cost a b rho m_param sigma 0 Hb Hs Hr (Rle_refl 0))
      as (f' & Hf' & Hge).
    rewrite Hf'; intros H; injection H as <-.
    unfold penalty in *; lra.
Qed.

(** On the two contradictory quotes, whatever the generator draws and
    whatever optimizer reporting true objective values is used, the value
    kept by [calibrate_svi] next to a returned vector is never below the
    penalty. *)
Lemma contradictory_quotes_never_below_penalty
  (rng : Type) (uniform : R -> R -> rng -> R * rng)
  (minimize : (list R -> result R) -> list R -> list (xreal * xreal)
              -> result OptimizeResult)
  (n : nat) (g g' : rng) (st : best) (f : R) :
  reports_objective minimize ->
  calibrate_svi_run rng uniform minimize [0; 0] [0; 200000] 0 n g = Ok (st, g') ->
  best_obj_val st = Fin f ->
  penalty <= f.
Proof.
  intros Hrep Hrun Hval.
  destruct (calibrate_svi_selects rng uniform minimize [0; 0] [0; 200000] 0 n g)
    as (base_a & st0 & g0 & _ & Hrun0 & _ & Ht); [discriminate|].
  rewrite Hrun in Hrun0; injection Hrun0 as <- <-.
  destruct Ht as [(_ & Hinf & _) | (res & Hin & _ & Hfin & _)]; [congruence|].
  rewrite Hval in Hfin; injection Hfin as ->.
  apply contradictory_quotes_any with (params := res_x res).
  revert Hin; unfold completed.
  generalize g; clear - Hrep; induction n as [|n IH]; intros g; simpl; [intros []|].
  destruct (draw_x0 rng uniform base_a g) as [x0 g1].
  intros [Heq | Hin]; [|now apply (IH g1)].
  unfold run_minimize in Heq; now apply Hrep in Heq.
Qed.

Lemma minimize_stay_reports_objective : reports_objective minimize_stay.
Proof.
  intros f x0 bs res H; unfold minimize_stay in H.
  destruct (f x0) as [y|e] eqn:Hy; simpl in H; [|discriminate].
  now injection H as <-.
Qed.

(** * Further properties of the code *)

(** ** The floor of the smile *)

Lemma sqrt_ge_abs (x s : R) : Rabs x <= sqrt (x ^ 2 + s ^ 2).
Proof.
  rewrite <- sqrt_Rsqr_abs; apply sqrt_le_1_alt.
  unfold Rsqr; nra.
Qed.

(** The wing term [rho * x + sqrt (x^2 + sigma^2)] is at least
    [sigma * sqrt (1 - rho^2)]. *)
Lemma wing_lower_bound (rho sigma x : R) :
  Rabs rho < 1 -> 0 <= sigma ->
  sigma * sqrt (1 - rho ^ 2) <= rho * x + sqrt (x ^ 2 + sigma ^ 2).
Proof.
  intros Hr Hs.
  assert (Hrho : -1 < rho < 1) by (apply Rabs_def2 in Hr; lra).
  set (s := sqrt (x ^ 2 + sigma ^ 2)).
  set (c := sqrt (1 - rho ^ 2)).
  assert (Hs2 : s * s = x ^ 2 + sigma ^ 2) by (apply sqrt_sqrt; nra).
  assert (Hc2 : c * c = 1 - rho ^ 2) by (apply sqrt_sqrt; nra).
  assert (Hc0 : 0 <= c) by apply sqrt_pos.
  assert (Hsx : Rabs x <= s) by apply sqrt_ge_abs.
  assert (Ht0 : 0 <= rho * x + s).
  { unfold Rabs in Hsx; destruct (Rcase_abs x); nra. }
  assert (Hsq : (sigma * c) * (sigma * c) <= (rho * x + s) * (rho * x + s)).
  { assert (H : (rho * x + s) * (rho * x + s) - (sigma * c) * (sigma * c)
                = (rho * s + x) * (rho * s + x)).
    { replace ((sigma * c) * (sigma * c)) with (sigma * sigma * (c * c)) by ring.
      rewrite Hc2.
      replace ((rho * x + s) * (rho * x + s))
        with (rho * rho * (x * x) + 2 * rho * x * s + s * s) by ring.
      rewrite Hs2; simpl.
      replace ((rho * s + x) * (rho * s + x))
        with (rho * rho * (s * s) + 2 * rho * x * s + x * x) by ring.
      rewrite Hs2; simpl; ring. }
    pose proof (Rle_0_sqr (rho * s + x)) as Hpos; unfold Rsqr in Hpos; lra. }
  assert (Hsc : 0 <= sigma * c) by nra.
  destruct (Rle_or_lt (sigma * c) (rho * x + s)) as [H|H]; [exact H|].
  nra.
Qed.

(** X1: for valid parameters every value the model returns is at least
    [a + b * sigma * sqrt (1 - rho^2)], hence at least [a]: the vertical
    shift is a floor of the fitted curve. *)
Theorem svi_model_floor (k : list R) (a b rho m_param sigma : R) :
  b >= 0 -> Rabs rho < 1 -> sigma > 0 ->
  exists out,
    svi_model k a b rho m_param sigma = Ok out /\
    Forall (fun y => a + b * (sigma * sqrt (1 - rho ^ 2)) <= y /\ a <= y) out.
Proof.
  intros Hb Hr Hs.
  exists (map (svi_point a b rho m_param sigma) k).
  split; [apply svi_model_elementwise|].
  apply Forall_forall; intros y Hy.
  apply in_map_iff in Hy as (x & <- & _); unfold svi_point.
  pose proof (wing_lower_bound rho sigma (x - m_param) Hr (Rlt_le _ _ Hs)) as Hw.
  assert (Hc : 0 <= sigma * sqrt (1 - rho ^ 2))
    by (apply Rmult_le_pos; [lra | apply sqrt_pos]).
  split; nra.
Qed.

Lemma svi_model_floor_witness :
  exists out,
    svi_model [0; 1] 20 1 0 0 1 = Ok out /\
    Forall (fun y => 20 + 1 * (1 * sqrt (1 - 0 ^ 2)) <= y /\ 20 <= y) out.
Proof.
  apply (svi_model_floor [0; 1] 20 1 0 0 1).
  - lra.
  - rewrite Rabs_R0; lra.
  - lra.
Defined.

(** ** The objective: sign, regularisation and failures *)

Lemma squared_errors_nonneg (a b rho m_param sigma : R) (k v : list R) :
  0 <= squared_errors a b rho m_param sigma k v.
Proof.
  unfold squared_errors.
  induction (combine k v) as [|p ps IH]; cbn [map fold_right]; [lra|].
  pose proof (pow2_ge_0 (svi_point a b rho m_param sigma (fst p) - snd p)) as H.
  lra.
Qed.

(** X2: on valid parameters and paired data the objective with weight
    [lambda_reg >= 0] is the objective with weight 0 (the plain sum of
    squared errors, which is non-negative) plus
    [lambda_reg * (b^2 + sigma^2)]; so it is non-negative and never below
    the unregularised value. *)
Theorem svi_objective_regularised (a b rho m_param sigma : R) (k v : list R)
  (lambda_reg : R) :
  b >= 0 -> sigma > 0 -> Rabs rho < 1 -> length k = length v -> 0 <= lambda_reg ->
  exists f0 f,
    svi_objective [a; b; rho; m_param; sigma] k v 0 = Ok f0 /\
    svi_objective [a; b; rho; m_param; sigma] k v lambda_reg = Ok f /\
    f0 = squared_errors a b rho m_param sigma k v /\
    f = f0 + lambda_reg * (b ^ 2 + sigma ^ 2) /\
    0 <= f0 <= f.
Proof.
  intros Hb Hs Hr Hlen Hl.
  exists (squared_errors a b rho m_param sigma k v),
    (squared_errors a b rho m_param sigma k v + lambda_reg * (b ^ 2 + sigma ^ 2)).
  rewrite !svi_objective_valid by assumption.
  split; [f_equal; ring|]; split; [reflexivity|]; split; [reflexivity|].
  split; [reflexivity|].
  pose proof (squared_errors_nonneg a b rho m_param sigma k v).
  assert (0 <= lambda_reg * (b ^ 2 + sigma ^ 2)) by (simpl; nra).
  lra.
Qed.

Lemma svi_objective_regularised_witness :
  exists f0 f,
    svi_objective [20; 1; 0; 0; 1] [0; 1] [21; 22] 0 = Ok f0 /\
    svi_objective [20; 1; 0; 0; 1] [0; 1] [21; 22] (1 / 2) = Ok f /\
    f0 = squared_errors 20 1 0 0 1 [0; 1] [21; 22] /\
    f = f0 + 1 / 2 * (1 ^ 2 + 1 ^ 2) /\
    0 <= f0 <= f.
Proof.
  apply (svi_objective_regularised 20 1 0 0 1 [0; 1] [21; 22] (1 / 2)).
  - lra.
  - lra.
  - rewrite Rabs_R0; lra.
  - reflexivity.
  - lra.
Defined.

Lemma broadcast_mismatch (f : R -> R -> R) (xs ys : list R) :
  length xs <> length ys -> length xs <> 1%nat -> length ys <> 1%nat ->
  np.broadcast f xs ys = Raise ValueError.
Proof.
  intros Hne Hx Hy; unfold np.broadcast.
  rewrite (proj2 (Nat.eqb_neq _ _) Hne).
  destruct xs as [|x [|x' xs]]; destruct ys as [|y [|y' ys]];
    simpl in *; try reflexivity; congruence.
Qed.

(** X3: the objective raises [ValueError] when [params] does not hold
    exactly five numbers, whatever [k] and [v] are; and, on valid
    parameters, when [k] and [v] have different lengths neither of which is
    1, the case numpy cannot broadcast. *)
Theorem svi_objective_raises (params k v : list R) (lambda_reg : R) :
  (length params <> 5%nat ->
     svi_objective params k v lambda_reg = Raise ValueError) /\
  (forall a b rho m_param sigma,
     params = [a; b; rho; m_param; sigma] ->
     b >= 0 -> sigma > 0 -> Rabs rho < 1 ->
     length k <> length v -> length k <> 1%nat -> length v <> 1%nat ->
     svi_objective params k v lambda_reg = Raise ValueError).
Proof.
  split.
  - intros Hlen.
    destruct params as [|a [|b [|rho [|m_param [|sigma [|]]]]]];
      try reflexivity.
    now destruct Hlen.
  - intros a b rho m_param sigma -> Hb Hs Hr Hne Hk Hv.
    unfold svi_objective; cbn [unpack5 rbind].
    rewrite (proj2 (valid_gate b rho sigma)) by tauto.
    rewrite svi_model_elementwise; cbn [rbind].
    unfold np.sub; rewrite broadcast_mismatch; try reflexivity;
      rewrite ?length_map; assumption.
Qed.

Lemma svi_objective_raises_witness :
  svi_objective [20; 1; 0] [0; 1] [21; 22] 0 = Raise ValueError /\
  svi_objective [20; 1; 0; 0; 1] [0; 1; 2] [21; 22] 0 = Raise ValueError.
Proof.
  split.
  - apply (proj1 (svi_objective_raises [20; 1; 0] [0; 1] [21; 22] 0)).
    simpl; lia.
  - apply (proj2 (svi_objective_raises [20; 1; 0; 0; 1] [0; 1; 2] [21; 22] 0)
             20 1 0 0 1 eq_refl).
    + lra.
    + lra.
    + rewrite Rabs_R0; lra.
    + simpl; lia.
    + simpl; lia.
    + simpl; lia.
Defined.

(** ** The starting points *)

Lemma uniform_mid_in_range : draws_in_range nat uniform_mid.
Proof. intros low high g H; unfold uniform_mid; simpl; lra. Qed.

(** X4: when every uniform draw lies in its interval, the starting point of
    an attempt lies in the box handed to the optimizer; its [b], [rho] and
    [sigma] are in [[0.05, 0.15]], [[-0.9, 0.9]] and [[0.1, 0.2]], its [a]
    within 0.5 of [min v] and its [m] within 0.1 of 0; so the objective at
    the start never takes the penalty branch. *)
Theorem start_point_is_feasible (rng : Type) (uniform : R -> R -> rng -> R * rng)
  (base_a : R) (g : rng) :
  draws_in_range rng uniform ->
  exists a0 b0 rho0 m0 sigma0,
    fst (draw_x0 rng uniform base_a g) = [a0; b0; rho0; m0; sigma0] /\
    within_bounds [a0; b0; rho0; m0; sigma0] bounds /\
    base_a - 0.5 <= a0 <= base_a + 0.5 /\
    0.05 <= b0 <= 0.15 /\ -0.9 <= rho0 <= 0.9 /\ -0.1 <= m0 <= 0.1 /\
    0.1 <= sigma0 <= 0.2 /\
    forall k v lambda_reg, length k = length v ->
      svi_objective [a0; b0; rho0; m0; sigma0] k v lambda_reg =
        Ok (squared_errors a0 b0 rho0 m0 sigma0 k v
            + lambda_reg * (b0 ^ 2 + sigma0 ^ 2)).
Proof.
  intros Hrange; unfold draw_x0.
  pose proof (Hrange (-0.5) 0.5 g) as H1.
  destruct (uniform (-0.5) 0.5 g) as [u1 g1]; simpl in H1.
  pose proof (Hrange (-0.05) 0.05 g1) as H2.
  destruct (uniform (-0.05) 0.05 g1) as [u2 g2]; simpl in H2.
  pose proof (Hrange (-0.9) 0.9 g2) as H3.
  destruct (uniform (-0.9) 0.9 g2) as [u3 g3]; simpl in H3.
  pose proof (Hrange (-0.1) 0.1 g3) as H4.
  destruct (uniform (-0.1) 0.1 g3) as [u4 g4]; simpl in H4.
  pose proof (Hrange 0 0.1 g4) as H5.
  destruct (uniform 0 0.1 g4) as [u5 g5]; simpl in H5.
  specialize (H1 ltac:(lra)); specialize (H2 ltac:(lra)); specialize (H3 ltac:(lra)).
  specialize (H4 ltac:(lra)); specialize (H5 ltac:(lra)).
  exists (base_a + u1), (0.1 + u2), u3, u4, (0.1 + u5).
  split; [reflexivity|].
  split.
  { unfold within_bounds, bounds.
    repeat (constructor; [simpl; try tauto; lra|]); constructor. }
  repeat (split; [lra|]).
  intros k v lambda_reg Hlen; apply svi_objective_valid; trivial; try lra.
  apply Rabs_def1; lra.
Qed.

Lemma start_point_is_feasible_witness :
  exists a0 b0 rho0 m0 sigma0,
    fst (draw_x0 nat uniform_mid 20 0%nat) = [a0; b0; rho0; m0; sigma0] /\
    within_bounds [a0; b0; rho0; m0; sigma0] bounds /\
    20 - 0.5 <= a0 <= 20 + 0.5 /\
    0.05 <= b0 <= 0.15 /\ -0.9 <= rho0 <= 0.9 /\ -0.1 <= m0 <= 0.1 /\
    0.1 <= sigma0 <= 0.2 /\
    forall k v lambda_reg, length k = length v ->
      svi_objective [a0; b0; rho0; m0; sigma0] k v lambda_reg =
        Ok (squared_errors a0 b0 rho0 m0 sigma0 k v
            + lambda_reg * (b0 ^ 2 + sigma0 ^ 2)).
Proof.
  apply (start_point_is_feasible nat uniform_mid 20 0%nat).
  exact uniform_mid_in_range.
Defined.

(** ** Randomness consumed, more starts, ties *)

Section MultiStartFacts.

Variable rng : Type.
Variable uniform : R -> R -> rng -> R * rng.
Variable minimize :
  (list R -> result R) -> list R -> list (xreal * xreal) -> result OptimizeResult.

Lemma draw_x0_state (base_a : R) (g : rng) :
  snd (draw_x0 rng uniform base_a g) = advance rng uniform g.
Proof.
  unfold advance, draw_x0.
  repeat match goal with |- context [uniform ?a ?b ?s] => destruct (uniform a b s) end.
  reflexivity.
Qed.

Lemma multi_start_state (n : nat) (k v : list R) (lambda_reg base_a : R) :
  forall (st : best) (g : rng),
    snd (multi_start rng uniform minimize n k v lambda_reg base_a st g) =
      Nat.iter n (advance rng uniform) g.
Proof.
  induction n as [|n IH]; intros st g; [reflexivity|].
  rewrite Nat.iter_succ_r; cbn [multi_start].
  pose proof (draw_x0_state base_a g) as Hs.
  destruct (draw_x0 rng uniform base_a g) as [x0 g1]; simpl in Hs; subst g1.
  apply IH.
Qed.

Lemma attempts_app (n m : nat) (k v : list R) (lambda_reg base_a : R) :
  forall g : rng,
    attempts rng uniform minimize (n + m) k v lambda_reg base_a g =
      attempts rng uniform minimize n k v lambda_reg base_a g ++
      attempts rng uniform minimize m k v lambda_reg base_a
        (Nat.iter n (advance rng uniform) g).
Proof.
  induction n as [|n IH]; intros g; [reflexivity|].
  rewrite Nat.iter_succ_r; cbn [Nat.add attempts].
  pose proof (draw_x0_state base_a g) as Hs.
  destruct (draw_x0 rng uniform base_a g) as [x0 g1]; simpl in Hs; subst g1.
  cbn [app]; f_equal; apply IH.
Qed.

(** One more outcome never loses a kept result nor raises the kept value. *)
Lemma update_best_improves (st : best) (r : result OptimizeResult) :
  (best_params st <> None -> best_params (update_best st r) <> None) /\
  (forall f1, best_obj_val st = Fin f1 ->
     exists f2, best_obj_val (update_best st r) = Fin f2 /\ f2 <= f1).
Proof.
  destruct r as [res|e]; simpl.
  - destruct (lt_best (res_fun res) (best_obj_val st)) eqn:Hlt; simpl.
    + split; [discriminate|].
      intros f1 Hf; rewrite Hf in Hlt; simpl in Hlt; apply Rltb_true in Hlt.
      exists (res_fun res); split; [reflexivity | lra].
    + split; [trivial|]; intros f1 Hf; exists f1; split; [exact Hf | lra].
  - split; [trivial|]; intros f1 Hf; exists f1; split; [exact Hf | lra].
Qed.

Lemma fold_update_improves (rs : list (result OptimizeResult)) : forall st,
  (best_params st <> None -> best_params (fold_left update_best rs st) <> None) /\
  (forall f1, best_obj_val st = Fin f1 ->
     exists f2, best_obj_val (fold_left update_best rs st) = Fin f2 /\ f2 <= f1).
Proof.
  induction rs as [|r rs IH]; intros st; simpl.
  - split; [trivial|]; intros f1 Hf; exists f1; split; [exact Hf | lra].
  - destruct (update_best_improves st r) as [Hp Hv].
    destruct (IH (update_best st r)) as [Hp' Hv'].
    split; [auto|].
    intros f1 Hf; destruct (Hv f1 Hf) as (f2 & Hf2 & Hle).
    destruct (Hv' f2 Hf2) as (f3 & Hf3 & Hle').
    exists f3; split; [exact Hf3 | lra].
Qed.

(** X5: on a non-empty [v] the call leaves the generator in the state
    reached by the five draws of each of its [N] attempts, whatever the
    data, the regularisation weight and the optimizer's outcomes (raised
    attempts draw like the others). *)
Theorem calibrate_svi_draws (k v : list R) (lambda_reg : R) (n : nat) (g : rng) :
  v <> [] ->
  exists res,
    calibrate_svi rng uniform minimize k v lambda_reg n g =
      Ok (res, Nat.iter n (advance rng uniform) g).
Proof.
  intros Hv.
  destruct (calibrate_svi_run_nonempty rng uniform minimize k v lambda_reg n g Hv)
    as (base_a & _ & Hrun).
  unfold calibrate_svi; rewrite Hrun; cbn [rbind].
  rewrite multi_start_state; eexists; reflexivity.
Qed.

(** X6: with the same data and generator state, asking for [m] more starts
    never gives a worse answer: if [N] starts return a vector then [N + m]
    starts return a vector too, and the objective value kept is less than
    or equal to the one kept after [N] starts. *)
Theorem more_starts_never_worse (k v : list R) (lambda_reg : R) (n m : nat)
  (g g1 g2 : rng) (st1 st2 : best) :
  calibrate_svi_run rng uniform minimize k v lambda_reg n g = Ok (st1, g1) ->
  calibrate_svi_run rng uniform minimize k v lambda_reg (n + m) g = Ok (st2, g2) ->
  (best_params st1 <> None -> best_params st2 <> None) /\
  (forall f1, best_obj_val st1 = Fin f1 ->
     exists f2, best_obj_val st2 = Fin f2 /\ f2 <= f1).
Proof.
  unfold calibrate_svi_run.
  destruct (np.min v) as [base_a|e]; cbn [rbind]; [|discriminate].
  intros H1 H2.
  assert (E1 : st1 = fst (multi_start rng uniform minimize n k v lambda_reg base_a
                            init_best g)) by (injection H1 as H1; now rewrite H1).
  assert (E2 : st2 = fst (multi_start rng uniform minimize (n + m) k v lambda_reg
                            base_a init_best g)) by (injection H2 as H2; now rewrite H2).
  rewrite multi_start_fold in E1, E2.
  rewrite attempts_app, fold_left_app, <- E1 in E2; subst st2.
  apply fold_update_improves.
Qed.

End MultiStartFacts.

Lemma calibrate_svi_draws_witness :
  [20; 21] <> [] /\
  exists res,
    calibrate_svi nat uniform_mid minimize_raise [0; 1] [20; 21] 0 3 0%nat =
      Ok (res, Nat.iter 3 (advance nat uniform_mid) 0%nat).
Proof.
  split; [discriminate|].
  apply (calibrate_svi_draws nat uniform_mid minimize_raise [0; 1] [20; 21] 0 3 0%nat).
  discriminate.
Defined.

Lemma more_starts_never_worse_witness :
  exists st1 st2 g1 g2,
    calibrate_svi_run nat uniform_mid minimize_stay [0; 1] [20; 21] 0 1 0%nat
      = Ok (st1, g1) /\
    calibrate_svi_run nat uniform_mid minimize_stay [0; 1] [20; 21] 0 (1 + 2) 0%nat
      = Ok (st2, g2) /\
    (best_params st1 <> None -> best_params st2 <> None) /\
    (forall f1, best_obj_val st1 = Fin f1 ->
       exists f2, best_obj_val st2 = Fin f2 /\ f2 <= f1).
Proof.
  do 4 eexists; split; [reflexivity|]; split; [reflexivity|].
  apply (more_starts_never_worse nat uniform_mid minimize_stay [0; 1] [20; 21] 0 1 2
           0%nat _ _ _ _ eq_refl eq_refl).
Defined.

Lemma keeps_first_step (st : best) (rs : list (result OptimizeResult))
  (r : result OptimizeResult) :
  (best_params st = None /\ best_obj_val st = PosInf /\ Forall raised rs) \/
  keeps_first_best st rs ->
  (best_params (update_best st r) = None /\
   best_obj_val (update_best st r) = PosInf /\ Forall raised (rs ++ [r])) \/
  keeps_first_best (update_best st r) (rs ++ [r]).
Proof.
  intros [(Hp & Hv & Hall) | (pre & res & post & -> & Hp & Hv & Hpre & Hpost)].
  - destruct r as [res|e]; simpl.
    + rewrite Hv; simpl; right.
      exists rs, res, []; repeat split.
      * intros r' Hin; rewrite Forall_forall in Hall.
        destruct (Hall _ Hin).
      * intros r' [].
    + left; repeat split; trivial.
      apply Forall_app; split; [assumption | repeat constructor].
  - right; destruct r as [res0|e]; simpl.
    + rewrite Hv; simpl.
      destruct (Rltb (res_fun res0) (res_fun res)) eqn:Hlt.
      * apply Rltb_true in Hlt.
        exists (pre ++ Ok res :: post), res0, []; simpl; repeat split.
        -- intros r' Hin; unfold completed in Hin.
           apply in_app_or in Hin as [Hin | [Heq | Hin]].
           ++ specialize (Hpre _ Hin); lra.
           ++ injection Heq as <-; lra.
           ++ specialize (Hpost _ Hin); lra.
        -- intros r' [].
      * apply Rltb_false in Hlt.
        exists pre, res, (post ++ [Ok res0]); repeat split; trivial.
        -- now rewrite <- app_assoc.
        -- intros r' Hin; unfold completed in Hin.
           apply in_app_or in Hin as [Hin | [Heq | []]].
           ++ now apply Hpost.
           ++ injection Heq as <-; lra.
    + exists pre, res, (post ++ [Raise e]); repeat split; trivial.
      * now rewrite <- app_assoc.
      * intros r' Hin; unfold completed in Hin.
        apply in_app_or in Hin as [Hin | [Heq | []]]; [now apply Hpost | discriminate].
Qed.

Lemma keeps_first_fold (rs : list (result OptimizeResult)) : forall st rs0,
  (best_params st = None /\ best_obj_val st = PosInf /\ Forall raised rs0) \/
  keeps_first_best st rs0 ->
  (best_params (fold_left update_best rs st) = None /\
   best_obj_val (fold_left update_best rs st) = PosInf /\ Forall raised (rs0 ++ rs)) \/
  keeps_first_best (fold_left update_best rs st) (rs0 ++ rs).
Proof.
  induction rs as [|r rs IH]; intros st rs0 H; simpl.
  - now rewrite app_nil_r.
  - replace (rs0 ++ r :: rs) with ((rs0 ++ [r]) ++ rs)
      by (now rewrite <- app_assoc).
    apply IH, keeps_first_step, H.
Qed.

(** X7: because the loop replaces the kept result only on a strictly
    smaller value, the vector [calibrate_svi] returns is the one of the
    first completed attempt that reaches the lowest reported objective
    value: attempts before it reported strictly more, attempts after it at
    least as much. *)
Theorem calibrate_svi_keeps_first_best
  (rng : Type) (uniform : R -> R -> rng -> R * rng)
  (minimize : (list R -> result R) -> list R -> list (xreal * xreal)
              -> result OptimizeResult)
  (k v : list R) (lambda_reg : R) (n : nat) (g : rng) (base_a : R) :
  np.min v = Ok base_a ->
  exists st g',
    calibrate_svi_run rng uniform minimize k v lambda_reg n g = Ok (st, g') /\
    calibrate_svi rng uniform minimize k v lambda_reg n g = Ok (best_params st, g') /\
    (best_params st = None \/
     keeps_first_best st (attempts rng uniform minimize n k v lambda_reg base_a g)).
Proof.
  intros Hmin.
  pose proof (multi_start_fold rng uniform minimize n k v lambda_reg base_a init_best g)
    as Hfold.
  destruct (multi_start rng uniform minimize n k v lambda_reg base_a init_best g)
    as [st g'] eqn:Hrun; simpl in Hfold.
  assert (Hr : calibrate_svi_run rng uniform minimize k v lambda_reg n g = Ok (st, g'))
    by (unfold calibrate_svi_run; rewrite Hmin; cbn [rbind]; now rewrite Hrun).
  exists st, g'; split; [exact Hr|]; split; [now apply calibrate_svi_of_run|].
  rewrite Hfold.
  destruct (keeps_first_fold (attempts rng uniform minimize n k v lambda_reg base_a g)
              init_best [])
    as [(Hn & _) | Hk]; [left; repeat split; constructor | now left | now right].
Qed.

Lemma calibrate_svi_keeps_first_best_witness :
  np.min [20; 21] = Ok (Rmin 20 21) /\
  exists st g',
    calibrate_svi_run nat uniform_mid minimize_stay [0; 1] [20; 21] 0 2 0%nat
      = Ok (st, g') /\
    calibrate_svi nat uniform_mid minimize_stay [0; 1] [20; 21] 0 2 0%nat
      = Ok (best_params st, g') /\
    (best_params st = None \/
     keeps_first_best st
       (attempts nat uniform_mid minimize_stay 2 [0; 1] [20; 21] 0 (Rmin 20 21) 0%nat)).
Proof.
  split; [reflexivity|].
  apply (calibrate_svi_keeps_first_best nat uniform_mid minimize_stay
           [0; 1] [20; 21] 0 2 0%nat (Rmin 20 21)).
  reflexivity.
Defined.

(** ** The generator as a whole *)

Lemma linspace_100_in_range (start stop x : R) :
  start <= stop -> In x (np.linspace start stop 100) -> start <= x <= stop.
Proof.
  intros Hle Hin; apply In_nth_error in Hin as (i & Hi).
  assert (Hlt : (i < 100)%nat).
  { rewrite <- (linspace_100_length start stop); apply nth_error_Some; congruence. }
  rewrite linspace_100_nth in Hi by exact Hlt.
  assert (Ex : x = start + INR i * ((stop - start) / 99)) by congruence.
  assert (H0 : 0 <= INR i) by apply pos_INR.
  assert (H99 : INR i <= 99).
  { replace 99 with (INR 99) by (simpl; lra); apply le_INR; lia. }
  rewrite Ex; split; nra.
Qed.

Section GeneratorWhole.

Variable rng : Type.
Variable uniform : R -> R -> rng -> R * rng.
Variable minimize :
  (list R -> result R) -> list R -> list (xreal * xreal) -> result OptimizeResult.

Variable imp_vol_data : QuoteTable.
Variables spot_price reg_weight : R.
Variable multi_start_count : nat.
Variable option_data_type : string.

Lemma maturity_step_returns (T : R) (acc : list pyrecord) (g : rng) :
  keeps_shape minimize ->
  exists rows g',
    maturity_step rng uniform minimize imp_vol_data spot_price reg_weight
      multi_start_count option_data_type T acc g = Ok (rows, g').
Proof.
  intros Hshape; unfold maturity_step.
  destruct (length (maturity_slice imp_vol_data T) <? 5)%nat eqn:Hlen;
    [now eexists; eexists|].
  apply Nat.ltb_ge in Hlen.
  destruct (calibrate_svi_returns rng uniform minimize
              (slice_k (maturity_slice imp_vol_data T))
              (slice_v (maturity_slice imp_vol_data T)) reg_weight multi_start_count g
              Hshape (slice_v_nonempty _ Hlen))
    as (res & g' & Hc & Hres).
  rewrite Hc; cbn [rbind].
  destruct Hres as [-> | (p & -> & Hp)]; [now eexists; eexists|].
  destruct p as [|a [|b [|rho [|m_param [|sigma [|]]]]]]; try discriminate.
  assert (Hk : slice_k (maturity_slice imp_vol_data T) <> []).
  { intros E; apply (f_equal (@length R)) in E.
    unfold slice_k in E; rewrite length_map in E; simpl in E; lia. }
  destruct (slice_k (maturity_slice imp_vol_data T)) as [|x xs] eqn:Ek;
    [contradiction|].
  erewrite sample_curve_ok by reflexivity.
  cbn [rbind]; now eexists; eexists.
Qed.

Lemma maturity_loop_returns (ms : list R) : forall (acc : list pyrecord) (g : rng),
  keeps_shape minimize ->
  exists rows g',
    maturity_loop rng uniform minimize ms imp_vol_data spot_price reg_weight
      multi_start_count option_data_type acc g = Ok (rows, g').
Proof.
  induction ms as [|T ms IH]; intros acc g Hshape; cbn [maturity_loop].
  - now eexists; eexists.
  - destruct (maturity_step_returns T acc g Hshape) as (rows & g1 & ->).
    cbn [rbind fst snd]; now apply IH.
Qed.

(** X8: with an optimizer that returns points of the shape of its start
    (whatever else it does, raising included), the surface generator never
    raises: for every list of maturities, every table, the empty one
    included, and every start count it returns a table. *)
Theorem generator_never_raises (ms : list R) (g : rng) :
  keeps_shape minimize ->
  exists out g',
    generate_svi_calibrated_data rng uniform minimize ms imp_vol_data spot_price
      reg_weight multi_start_count option_data_type g = Ok (out, g').
Proof.
  intros Hshape.
  destruct (maturity_loop_returns ms [] g Hshape) as (rows & g' & Hloop).
  destruct (generate_data rng uniform minimize imp_vol_data spot_price reg_weight
              multi_start_count option_data_type ms rows g g' Hloop) as (out & Hgen & _).
  now exists out, g'.
Qed.

(** X9: every row of a returned table has the six keys in source order; its
    [LogMoneyness] lies within 0.1 of the range of log-moneyness observed in
    the slice of its maturity, its [Moneyness] is the exponential of its
    [LogMoneyness] (so positive), its [StrikePrice] is the spot price times
    its [Moneyness], and its [OptionType] is the normalised label. *)
Theorem surface_row_invariants (ms : list R) (g gout : rng) (out : DataFrame) :
  generate_svi_calibrated_data rng uniform minimize ms imp_vol_data spot_price
    reg_weight multi_start_count option_data_type g = Ok (out, gout) ->
  Forall
    (fun row =>
       map fst row = surface_columns /\
       exists T x lo hi,
         In T ms /\
         num_cell "TimeToExpiry" row = Some T /\
         least lo (map LogMoneyness (maturity_slice imp_vol_data T)) /\
         greatest hi (map LogMoneyness (maturity_slice imp_vol_data T)) /\
         num_cell "LogMoneyness" row = Some x /\
         lo - 0.1 <= x <= hi + 0.1 /\
         num_cell "Moneyness" row = Some (exp x) /\
         0 < exp x /\
         num_cell "StrikePrice" row = Some (spot_price * exp x) /\
         lookup "OptionType" row = Some (VStr (option_label option_data_type)))
    (data out).
Proof.
  intros H.
  pose proof (generate_rows_emitted rng uniform minimize imp_vol_data spot_price
                reg_weight multi_start_count option_data_type ms g gout out H) as Hem.
  eapply Forall_impl; [|exact Hem].
  intros row (T & g1 & g2 & a & b & rho & m & sigma & lo & hi & x & Hrow).
  cbv zeta in Hrow; destruct Hrow as (HT & _ & _ & Hlo & Hhi & Hx & ->).
  apply py_min_least in Hlo; apply py_max_greatest in Hhi.
  split; [reflexivity|].
  exists T, x, lo, hi.
  split; [exact HT|]; split; [reflexivity|].
  split; [exact Hlo|]; split; [exact Hhi|]; split; [reflexivity|].
  split.
  { apply linspace_100_in_range; [|exact Hx].
    pose proof (least_le_greatest lo hi _ Hlo Hhi); lra. }
  split; [reflexivity|]; split; [apply exp_pos|].
  split; reflexivity.
Qed.

End GeneratorWhole.

Lemma generator_never_raises_witness :
  keeps_shape minimize_stay /\
  exists out g',
    generate_svi_calibrated_data nat uniform_mid minimize_stay [0.5; 1] mixed_table
      100 0 1 "Both" 0%nat = Ok (out, g').
Proof.
  split; [exact minimize_stay_keeps_shape|].
  apply (generator_never_raises nat uniform_mid minimize_stay mixed_table 100 0 1
           "Both" [0.5; 1] 0%nat).
  exact minimize_stay_keeps_shape.
Defined.

Lemma surface_row_invariants_witness :
  exists out gout,
    generate_svi_calibrated_data nat uniform_mid minimize_stay [0.5] scenario_table
      100 0 1 "Both" 0%nat = Ok (out, gout) /\
    length (data out) = 100%nat /\
    Forall
      (fun row =>
         map fst row = surface_columns /\
         exists T x lo hi,
           In T [0.5] /\
           num_cell "TimeToExpiry" row = Some T /\
           least lo (map LogMoneyness (maturity_slice scenario_table T)) /\
           greatest hi (map LogMoneyness (maturity_slice scenario_table T)) /\
           num_cell "LogMoneyness" row = Some x /\
           lo - 0.1 <= x <= hi + 0.1 /\
           num_cell "Moneyness" row = Some (exp x) /\
           0 < exp x /\
           num_cell "StrikePrice" row = Some (100 * exp x) /\
           lookup "OptionType" row = Some (VStr (option_label "Both")))
      (data out).
Proof.
  destruct (scenario_generate scenario_table scenario_slice)
    as (base_a & lo & hi & a & b & rho & m & sigma & _ & _ & Hgen).
  eexists; eexists; split; [exact Hgen|].
  split; [cbn [data DataFrame_of_records]; apply curve_rows_length|].
  exact (surface_row_invariants nat uniform_mid minimize_stay scenario_table
           100 0 1 "Both" [0.5] 0%nat 5%nat _ Hgen).
Defined.

Section GeneratorShape.

Variable rng : Type.
Variable uniform : R -> R -> rng -> R * rng.
Variable minimize :
  (list R -> result R) -> list R -> list (xreal * xreal) -> result OptimizeResult.

Variable imp_vol_data : QuoteTable.
Variables spot_price reg_weight : R.
Variable multi_start_count : nat.
Variable option_data_type : string.



(** X11: rows come out grouped by maturity in the order of the input list:
    on a list [ms1 ++ ms2] the table returned for [ms1] alone is a prefix of
    the table returned for the whole list, and the rows after it belong to
    maturities of [ms2]. *)
Theorem surface_rows_in_input_order (ms1 ms2 : list R) (g gout : rng) (out : DataFrame) :
  generate_svi_calibrated_data rng uniform minimize (ms1 ++ ms2) imp_vol_data
    spot_price reg_weight multi_start_count option_data_type g = Ok (out, gout) ->
  exists out1 g1 rows2,
    generate_svi_calibrated_data rng uniform minimize ms1 imp_vol_data
      spot_price reg_weight multi_start_count option_data_type g = Ok (out1, g1) /\
    data out = data out1 ++ rows2 /\
    Forall (emitted rng uniform minimize imp_vol_data spot_price reg_weight
              multi_start_count option_data_type ms1) (data out1) /\
    Forall (emitted rng uniform minimize imp_vol_data spot_price reg_weight
              multi_start_count option_data_type ms2) rows2.
Proof.
  intros H; apply generate_inv in H; rewrite maturity_loop_app in H.
  destruct (maturity_loop rng uniform minimize ms1 imp_vol_data spot_price reg_weight
              multi_start_count option_data_type [] g) as [[rows1 g1]|e] eqn:H1;
    cbn [rbind fst snd] in H; [|discriminate].
  destruct (generate_data rng uniform minimize imp_vol_data spot_price reg_weight
              multi_start_count option_data_type ms1 rows1 g g1 H1)
    as (out1 & Hgen1 & Hdata1).
  apply maturity_loop_rows in H as (rows2 & Hout & Hnew2).
  exists out1, g1, rows2; split; [exact Hgen1|].
  rewrite Hdata1; split; [exact Hout|]; split; [|exact Hnew2].
  apply maturity_loop_rows in H1 as (new1 & -> & Hnew1); exact Hnew1.
Qed.

(** X12: when each maturity of the list has fewer than five close quotes (in
    particular on a table without rows, or an empty list), the call returns
    the empty five-column table and leaves the generator state untouched:
    no calibration is run. *)
Theorem no_slice_no_calibration (ms : list R) (g : rng) :
  (forall T, In T ms -> (length (maturity_slice imp_vol_data T) < 5)%nat) ->
  generate_svi_calibrated_data rng uniform minimize ms imp_vol_data spot_price
    reg_weight multi_start_count option_data_type g =
    Ok (DataFrame_of_columns empty_columns, g).
Proof.
  intros Hthin; unfold generate_svi_calibrated_data.
  assert (Hloop : maturity_loop rng uniform minimize ms imp_vol_data spot_price
                    reg_weight multi_start_count option_data_type [] g = Ok ([], g)).
  { induction ms as [|T ms IH]; cbn [maturity_loop]; [reflexivity|].
    rewrite maturity_step_skip by (apply Hthin; now left).
    cbn [rbind fst snd]; apply IH; intros T' HT'; apply Hthin; now right. }
  rewrite Hloop; reflexivity.
Qed.

End GeneratorShape.


Lemma surface_rows_in_input_order_witness :
  exists out gout,
    generate_svi_calibrated_data nat uniform_mid minimize_stay ([0.5] ++ 1 :: [])
      mixed_table 100 0 1 "Both" 0%nat = Ok (out, gout) /\
    exists out1 g1 rows2,
      generate_svi_calibrated_data nat uniform_mid minimize_stay [0.5]
        mixed_table 100 0 1 "Both" 0%nat = Ok (out1, g1) /\
      data out = data out1 ++ rows2 /\
      Forall (emitted nat uniform_mid minimize_stay mixed_table 100 0 1 "Both" [0.5])
        (data out1) /\
      Forall (emitted nat uniform_mid minimize_stay mixed_table 100 0 1 "Both" [1])
        rows2.
Proof.
  destruct mixed_generate as (out & Hgen & _).
  exists out, 5%nat; split; [exact Hgen|].
  exact (surface_rows_in_input_order nat uniform_mid minimize_stay mixed_table 100 0 1
           "Both" [0.5] [1] 0%nat 5%nat out Hgen).
Defined.

Lemma no_slice_no_calibration_witness :
  (forall T, In T [1] -> (length (maturity_slice mixed_table T) < 5)%nat) /\
  generate_svi_calibrated_data nat uniform_mid minimize_stay [1] mixed_table
    100 0 1 "Both" 0%nat = Ok (DataFrame_of_columns empty_columns, 0%nat).
Proof.
  assert (H : forall T, In T [1] -> (length (maturity_slice mixed_table T) < 5)%nat).
  { intros T [<-|[]]; rewrite mixed_slice_one; simpl; lia. }
  split; [exact H|].
  exact (no_slice_no_calibration nat uniform_mid minimize_stay mixed_table 100 0 1
           "Both" [1] 0%nat H).
Defined.

(** ** Quartiles and what the fences always keep *)

Lemma insert_sorted_perm (x : R) (xs : list R) :
  Permutation (x :: xs) (insert_sorted x xs).
Proof.
  induction xs as [|y ys IH]; simpl; [apply Permutation_refl|].
  destruct (Rleb x y); [apply Permutation_refl|].
  apply perm_trans with (y :: x :: ys); [apply perm_swap|].
  now apply perm_skip.
Qed.

Lemma sort_values_perm (xs : list R) : Permutation xs (sort_values xs).
Proof.
  induction xs as [|x xs IH]; simpl; [apply perm_nil|].
  apply perm_trans with (x :: sort_values xs); [now apply perm_skip|].
  apply insert_sorted_perm.
Qed.

Lemma insert_sorted_sorted (x : R) (xs : list R) :
  StronglySorted Rle xs -> StronglySorted Rle (insert_sorted x xs).
Proof.
  induction xs as [|y ys IH]; intros Hs; simpl.
  - constructor; constructor.
  - inversion Hs as [|? ? Hys Hall]; subst.
    destruct (Rleb x y) eqn:E.
    + apply Rleb_true in E; constructor; [exact Hs|].
      constructor; [exact E|].
      eapply Forall_impl; [|exact Hall]; intros z Hz; simpl in Hz; lra.
    + apply Rleb_false in E; constructor; [now apply IH|].
      apply Forall_forall; intros z Hz.
      apply (Permutation_in _ (Permutation_sym (insert_sorted_perm x ys))) in Hz.
      destruct Hz as [<-|Hz]; [lra|].
      rewrite Forall_forall in Hall; now apply Hall.
Qed.

Lemma sort_values_sorted (xs : list R) : StronglySorted Rle (sort_values xs).
Proof.
  induction xs as [|x xs IH]; simpl; [constructor|].
  now apply insert_sorted_sorted.
Qed.

Lemma sort_values_length (xs : list R) : length (sort_values xs) = length xs.
Proof. symmetry; apply Permutation_length, sort_values_perm. Qed.

Lemma sorted_nth_le (s : list R) : StronglySorted Rle s ->
  forall i j, (i <= j)%nat -> (j < length s)%nat -> nth i s 0 <= nth j s 0.
Proof.
  induction 1 as [|x s Hs IH Hall]; intros i j Hij Hj; simpl in Hj; [lia|].
  destruct i as [|i]; destruct j as [|j]; simpl; try lra; try lia.
  - rewrite Forall_forall in Hall; apply Hall, nth_In; lia.
  - apply IH; lia.
Qed.

Lemma sort_values_nth_in (xs : list R) (i : nat) :
  (i < length xs)%nat -> In (nth i (sort_values xs) 0) xs.
Proof.
  intros Hi.
  apply (Permutation_in _ (Permutation_sym (sort_values_perm xs))).
  apply nth_In; now rewrite sort_values_length.
Qed.

Lemma quantile_unfold (xs : list R) (num den : nat) :
  xs <> [] ->
  quantile xs num den =
    Some (nth ((length xs - 1) * num / den) (sort_values xs) 0
          + (nth (Nat.min ((length xs - 1) * num / den + 1) (length xs - 1))
                 (sort_values xs) 0
             - nth ((length xs - 1) * num / den) (sort_values xs) 0)
            * (INR (((length xs - 1) * num) mod den) / INR den)).
Proof. destruct xs; [contradiction | reflexivity]. Qed.

(** The quartiles are ordered, and some value of the column lies between
    the first quartile and the upper fence. *)
Lemma quartiles_ordered (xs : list R) :
  xs <> [] ->
  exists Q1 Q3 x,
    quantile xs 1 4 = Some Q1 /\ quantile xs 3 4 = Some Q3 /\
    Q1 <= Q3 /\ In x xs /\ Q1 <= x <= Q3 + 2 * (Q3 - Q1).
Proof.
  intros Hne.
  assert (Hn : (1 <= length xs)%nat) by (destruct xs; [contradiction | simpl; lia]).
  rewrite !(quantile_unfold xs _ _ Hne).
  set (n := length xs) in *.
  set (s := sort_values xs).
  assert (Hsorted := sort_values_sorted xs); fold s in Hsorted.
  assert (Hlen : length s = n) by apply sort_values_length.
  assert (Hmono := sorted_nth_le s Hsorted).
  set (lo1 := ((n - 1) * 1 / 4)%nat).
  set (lo3 := ((n - 1) * 3 / 4)%nat).
  set (r1 := ((n - 1) * 1 mod 4)%nat).
  set (r3 := ((n - 1) * 3 mod 4)%nat).
  assert (D1 : ((n - 1) * 1 = 4 * lo1 + r1)%nat) by apply Nat.div_mod_eq.
  assert (D3 : ((n - 1) * 3 = 4 * lo3 + r3)%nat) by apply Nat.div_mod_eq.
  assert (B1 : (r1 < 4)%nat) by (apply Nat.mod_upper_bound; lia).
  assert (B3 : (r3 < 4)%nat) by (apply Nat.mod_upper_bound; lia).
  set (hi1 := Nat.min (lo1 + 1) (n - 1)).
  set (hi3 := Nat.min (lo3 + 1) (n - 1)).
  assert (F1 : 0 <= INR r1 / INR 4 <= 1).
  { assert (0 <= INR r1) by apply pos_INR.
    assert (INR r1 <= INR 4) by (apply le_INR; lia).
    assert (INR 4 = 4) by (simpl; lra).
    split; [apply Rmult_le_pos; [lra | apply Rlt_le, Rinv_0_lt_compat; lra]|].
    apply Rmult_le_reg_r with 4; [lra|]; unfold Rdiv.
    rewrite Rmult_assoc, H1, Rinv_l by lra; lra. }
  assert (F3 : 0 <= INR r3 / INR 4 <= 1).
  { assert (0 <= INR r3) by apply pos_INR.
    assert (INR r3 <= INR 4) by (apply le_INR; lia).
    assert (INR 4 = 4) by (simpl; lra).
    split; [apply Rmult_le_pos; [lra | apply Rlt_le, Rinv_0_lt_compat; lra]|].
    apply Rmult_le_reg_r with 4; [lra|]; unfold Rdiv.
    rewrite Rmult_assoc, H1, Rinv_l by lra; lra. }
  assert (L1 : nth lo1 s 0 <= nth hi1 s 0) by (apply Hmono; unfold hi1; lia).
  assert (L3 : nth lo3 s 0 <= nth hi3 s 0) by (apply Hmono; unfold hi3; lia).
  exists (nth lo1 s 0 + (nth hi1 s 0 - nth lo1 s 0) * (INR r1 / INR 4)),
         (nth lo3 s 0 + (nth hi3 s 0 - nth lo3 s 0) * (INR r3 / INR 4)),
         (nth hi1 s 0).
  split; [reflexivity|]; split; [reflexivity|].
  assert (Hin : In (nth hi1 s 0) xs) by (apply sort_values_nth_in; unfold hi1; fold n; lia).
  destruct (Nat.lt_ge_cases lo1 lo3) as [Hlt | Hge].
  - assert (M : nth hi1 s 0 <= nth lo3 s 0) by (apply Hmono; unfold hi1; lia).
    repeat split; trivial; nra.
  - assert (Elo : lo1 = 0%nat) by lia.
    assert (Elo3 : lo3 = 0%nat) by lia.
    assert (Er3 : r3 = (3 * r1)%nat) by lia.
    assert (Ehi : hi3 = hi1) by (unfold hi1, hi3; lia).
    rewrite Ehi, Elo3, Elo in *.
    assert (Hr : INR r3 = 3 * INR r1)
      by (rewrite Er3, mult_INR; simpl; lra).
    assert (I4 : INR 4 = 4) by (simpl; lra).
    rewrite Hr, I4 in *.
    assert (R0 : 0 <= INR r1) by apply pos_INR.
    assert (Cases : r1 = 0%nat \/ r1 = 1%nat) by lia.
    destruct Cases as [E0 | E1].
    + assert (En : n = 1%nat) by lia.
      assert (Eh : hi1 = 0%nat) by (unfold hi1; lia).
      rewrite Eh, E0 in *; simpl INR.
      repeat split; trivial; lra.
    + rewrite E1 in *; simpl INR.
      repeat split; trivial; lra.
Qed.

(** X13: when at least one row passes the volume step, the quartiles of
    the remaining implied volatilities satisfy [Q1 <= Q3], every remaining
    row whose implied volatility lies between [Q1] and [Q3] is returned, and
    the returned table is not empty: the filter never removes every row. *)
Theorem filter_outliers_keeps_the_core (h : frames) (ref : nat) (t : QuoteTable) :
  nth_error h ref = Some t ->
  volume_filtered t <> [] ->
  exists ref' h' t' Q1 Q3,
    filter_outliers h ref = Ok (ref', h') /\
    nth_error h' ref' = Some t' /\
    quantile (map ImpliedVolatility (volume_filtered t)) 1 4 = Some Q1 /\
    quantile (map ImpliedVolatility (volume_filtered t)) 3 4 = Some Q3 /\
    Q1 <= Q3 /\
    (forall q, In q (volume_filtered t) ->
               Q1 <= ImpliedVolatility q <= Q3 -> In q (quotes t')) /\
    quotes t' <> [].
Proof.
  intros Href Hne.
  destruct (filter_outliers_run h ref t Href) as (ref' & h' & Hrun & _ & Hnew).
  cbv zeta in Hnew.
  assert (Hiv : map ImpliedVolatility (volume_filtered t) <> [])
    by (destruct (volume_filtered t); [contradiction | discriminate]).
  destruct (quartiles_ordered _ Hiv) as (Q1 & Q3 & x & HQ1 & HQ3 & Hle & Hx & Hxr).
  rewrite HQ1, HQ3 in Hnew; cbn [nan_map2 ge_nan le_nan] in Hnew.
  eexists ref', h', _, Q1, Q3.
  split; [exact Hrun|]; split; [exact Hnew|].
  split; [exact HQ1|]; split; [exact HQ3|]; split; [exact Hle|].
  cbn [quotes].
  assert (Hkeep : forall q, In q (volume_filtered t) ->
            Q1 - 2 * (Q3 - Q1) <= ImpliedVolatility q <= Q3 + 2 * (Q3 - Q1) ->
            In q (filter (fun q => Rgeb (ImpliedVolatility q) (Q1 - 2 * (Q3 - Q1))
                                   && Rleb (ImpliedVolatility q) (Q3 + 2 * (Q3 - Q1)))
                         (volume_filtered t))).
  { intros q Hq Hr; apply filter_In; split; [exact Hq|].
    apply andb_true_iff; split; [apply Rgeb_true | apply Rleb_true]; lra. }
  split.
  - intros q Hq Hr; apply Hkeep; [exact Hq | lra].
  - apply in_map_iff in Hx as (q & Hqx & Hq).
    intros Hnil.
    assert (Hin := Hkeep q Hq ltac:(rewrite Hqx; lra)).
    rewrite Hnil in Hin; destruct Hin.
Qed.

Lemma filter_outliers_keeps_the_core_witness :
  nth_error [volume_table] 0 = Some volume_table /\
  volume_filtered volume_table <> [] /\
  exists ref' h' t' Q1 Q3,
    filter_outliers [volume_table] 0 = Ok (ref', h') /\
    nth_error h' ref' = Some t' /\
    quantile (map ImpliedVolatility (volume_filtered volume_table)) 1 4 = Some Q1 /\
    quantile (map ImpliedVolatility (volume_filtered volume_table)) 3 4 = Some Q3 /\
    Q1 <= Q3 /\
    (forall q, In q (volume_filtered volume_table) ->
               Q1 <= ImpliedVolatility q <= Q3 -> In q (quotes t')) /\
    quotes t' <> [].
Proof.
  assert (Hne : volume_filtered volume_table <> []).
  { unfold volume_filtered, volume_table; cbn [has_volume quotes filter volume].
    rewrite (proj2 (Rgtb_true 50 10)) by lra; discriminate. }
  split; [reflexivity|]; split; [exact Hne|].
  exact (filter_outliers_keeps_the_core [volume_table] 0 volume_table eq_refl Hne).
Defined.

(** X14: on every existing table, with or without a volume column, without
    rows or with a single row, the call returns a reference to a newly
    created table: a reference that was not valid before the call, so never
    the caller's own table, even when no row is filtered out. *)
Theorem filter_outliers_returns_fresh_table (h : frames) (ref : nat) (t : QuoteTable) :
  nth_error h ref = Some t ->
  exists ref' h' t',
    filter_outliers h ref = Ok (ref', h') /\
    nth_error h' ref' = Some t' /\
    nth_error h ref' = None /\
    ref' <> ref.
Proof.
  intros Href.
  assert (Hlt : (ref < length h)%nat) by (apply nth_error_Some; congruence).
  unfold filter_outliers, volume_step, deref; rewrite Href; cbn [rbind].
  destruct (has_volume t).
  - rewrite (getitem_mask_ok h ref t _ Href); cbn [rbind new_frame fst snd].
    erewrite iqr_step_ok by apply nth_error_new_frame.
    eexists; eexists; eexists; split; [reflexivity|].
    cbn [new_frame fst snd]; split; [apply nth_error_new_frame|].
    rewrite length_app; simpl; split; [apply nth_error_None; lia | lia].
  - cbn [rbind fst snd]; erewrite iqr_step_ok by exact Href.
    eexists; eexists; eexists; split; [reflexivity|].
    cbn [new_frame fst snd]; split; [apply nth_error_new_frame|].
    split; [apply nth_error_None; lia | lia].
Qed.

Lemma filter_outliers_returns_fresh_table_witness :
  nth_error [outlier_table] 0 = Some outlier_table /\
  exists ref' h' t',
    filter_outliers [outlier_table] 0 = Ok (ref', h') /\
    nth_error h' ref' = Some t' /\
    nth_error [outlier_table] ref' = None /\
    ref' <> 0%nat.
Proof.
  split; [reflexivity|].
  apply (filter_outliers_returns_fresh_table [outlier_table] 0 outlier_table).
  reflexivity.
Defined.

(** ** The label normaliser *)

Lemma replace_scan_absent (old new s : string) :
  contains old s = false -> replace_scan old new s 0 = s.
Proof.
  induction s as [|c s IH]; intros H; [reflexivity|].
  cbn [contains] in H; apply orb_false_iff in H as [Hp Hc].
  cbn [replace_scan]; rewrite Hp, IH by exact Hc; reflexivity.
Qed.

Lemma str_replace_absent (s old new : string) :
  contains old s = false -> str_replace s old new = s.
Proof.
  intros H; unfold str_replace.
  destruct old as [|c old]; [|now apply replace_scan_absent].
  destruct s; simpl in H; discriminate.
Qed.

(** X15: a label in which neither [" Only"] nor ["Both Calls & Puts"]
    occurs is written to the rows unchanged. *)
Theorem option_label_unchanged (option_data_type : string) :
  contains " Only" option_data_type = false ->
  contains "Both Calls & Puts" option_data_type = false ->
  option_label option_data_type = option_data_type.
Proof.
  intros H1 H2; unfold option_label.
  rewrite (str_replace_absent option_data_type " Only" "" H1).
  now apply str_replace_absent.
Qed.

Lemma option_label_unchanged_witness :
  contains " Only" "Calls" = false /\
  contains "Both Calls & Puts" "Calls" = false /\
  option_label "Calls" = "Calls"%string.
Proof.
  split; [reflexivity|]; split; [reflexivity|].
  apply (option_label_unchanged "Calls"); reflexivity.
Defined.

(** ** The floor is reached *)

(** X16: for valid parameters the floor [a + b * sigma * sqrt (1 - rho^2)]
    is the value of the model at
    [k = m - rho * sigma / sqrt (1 - rho^2)]: the bound of X1 is the
    minimum of the fitted curve. *)
Theorem svi_model_minimum (a b rho m_param sigma : R) :
  b >= 0 -> Rabs rho < 1 -> sigma > 0 ->
  svi_model [m_param - rho * sigma / sqrt (1 - rho ^ 2)] a b rho m_param sigma =
    Ok [a + b * (sigma * sqrt (1 - rho ^ 2))].
Proof.
  intros Hb Hr Hs.
  rewrite svi_model_elementwise; cbn [map]; unfold svi_point; do 3 f_equal.
  assert (Hrho : -1 < rho < 1) by (apply Rabs_def2 in Hr; lra).
  set (c := sqrt (1 - rho ^ 2)).
  assert (Hc0 : 0 < c) by (apply sqrt_lt_R0; nra).
  assert (Hc2 : c * c = 1 - rho ^ 2) by (apply sqrt_sqrt; nra).
  replace (m_param - rho * sigma / c - m_param) with (- (rho * sigma / c)) by lra.
  assert (Hsq : sqrt ((- (rho * sigma / c)) ^ 2 + sigma ^ 2) = sigma / c).
  { apply sqrt_lem_1.
    - nra.
    - apply Rlt_le, Rdiv_lt_0_compat; lra.
    - field_simplify; [|lra|lra].
      replace (c ^ 2) with (1 - rho ^ 2) by (simpl; rewrite Rmult_1_r; lra).
      field; nra. }
  rewrite Hsq.
  replace (rho * - (rho * sigma / c) + sigma / c)
    with (sigma * ((1 - rho ^ 2) / c)) by (field; lra).
  rewrite <- Hc2; f_equal; field; lra.
Qed.

Lemma svi_model_minimum_witness :
  svi_model [0 - 0 * 1 / sqrt (1 - 0 ^ 2)] 20 1 0 0 1 =
    Ok [20 + 1 * (1 * sqrt (1 - 0 ^ 2))].
Proof.
  apply (svi_model_minimum 20 1 0 0 1).
  - lra.
  - rewrite Rabs_R0; lra.
  - lra.
Defined.

(** ** The table is rectangular *)

(** X17: in a returned table every row has a cell for every column of the
    table, and as soon as the table has a row its columns are the six
    labels [TimeToExpiry, LogMoneyness, StrikePrice, Moneyness,
    ImpliedVolatility, OptionType], in this order. *)
Theorem surface_table_is_rectangular
  (rng : Type) (uniform : R -> R -> rng -> R * rng)
  (minimize : (list R -> result R) -> list R -> list (xreal * xreal)
              -> result OptimizeResult)
  (imp_vol_data : QuoteTable) (spot_price reg_weight : R) (multi_start_count : nat)
  (option_data_type : string) (ms : list R) (g gout : rng) (out : DataFrame) :
  generate_svi_calibrated_data rng uniform minimize ms imp_vol_data spot_price
    reg_weight multi_start_count option_data_type g = Ok (out, gout) ->
  (data out <> [] -> columns out = surface_columns) /\
  (forall row c, In row (data out) -> In c (columns out) -> lookup c row <> None).
Proof.
  intros H; split; [now apply (nonempty_surface_columns _ _ _ _ _ _ _ _ _ _ _ _ H)|].
  intros row c Hrow Hc.
  assert (Hne : data out <> []) by (intros E; rewrite E in Hrow; destruct Hrow).
  rewrite (nonempty_surface_columns _ _ _ _ _ _ _ _ _ _ _ _ H Hne) in Hc.
  pose proof (generate_rows_emitted _ _ _ _ _ _ _ _ _ _ _ _ H) as Hem.
  rewrite Forall_forall in Hem; specialize (Hem row Hrow).
  destruct Hem as (T & g1 & g2 & a & b & rho & m & sigma & lo & hi & x & Hem).
  cbv zeta in Hem; destruct Hem as (_ & _ & _ & _ & _ & _ & ->).
  unfold surface_columns in Hc; cbn [In] in Hc.
  destruct Hc as [<-|[<-|[<-|[<-|[<-|[<-|[]]]]]]]; discriminate.
Qed.

Lemma surface_table_is_rectangular_witness :
  exists out gout,
    generate_svi_calibrated_data nat uniform_mid minimize_stay [0.5] scenario_table
      100 0 1 "Both" 0%nat = Ok (out, gout) /\
    length (data out) = 100%nat /\
    (data out <> [] -> columns out = surface_columns) /\
    (forall row c, In row (data out) -> In c (columns out) -> lookup c row <> None).
Proof.
  destruct (scenario_generate scenario_table scenario_slice)
    as (base_a & lo & hi & a & b & rho & m & sigma & _ & _ & Hgen).
  eexists; eexists; split; [exact Hgen|].
  split; [cbn [data DataFrame_of_records]; apply curve_rows_length|].
  exact (surface_table_is_rectangular nat uniform_mid minimize_stay scenario_table
           100 0 1 "Both" [0.5] 0%nat 5%nat _ Hgen).
Defined.
